(** * Cinema subtitle translator: retrying client, tiered cache, batch dispatch

    A shallow embedding of the three infrastructure pieces of the repository
    and the properties its specification states about them:

    - [src/api/deepseek_client.py]   : [DeepSeekClient] (transport, retry loop, stats)
    - [src/storage/cache_manager.py] : [CacheManager]   (memory / Redis / disk tiers)
    - [src/core/translation_engine.py] : [ContextAwareTranslator]
                                       (per-subtitle translation, batch fan-out)

    Conventions of the embedding.
    - Python exceptions are values of [exn]; a call that may raise returns
      [res A]; [try]/[except] is an explicit [match] on the result.
    - Objects mutated in place are records threaded through the calls.
    - What the event loop and the network decide (HTTP outcomes, store
      faults, clock readings) comes from oracles indexed by a call counter.
    - The retry loop is defined by well-founded recursion on the attempts
      left, so the model of every call is a total function.
    - Python floats that only accumulate or compare (clock readings,
      latencies, scores) are idealised as rationals [Qc].
    - A Python string is held as the bytes of its UTF-8 form, a lone
      surrogate included as its three bytes, so that [str.encode()] is
      defined on every string and fails where Python's does.
    - The dataclasses hold values of their declared types. *)

From stdpp Require Import base numbers gmap strings list pretty.
From Stdlib Require Import QArith Qcanon Ascii.
From Equations Require Import Equations.

Open Scope Z_scope.

(** ** Python values and exceptions *)

(** Values that cross the JSON boundary or sit in the cache. A JSON object
    is an association list in document order. *)
#[warnings="-register-all"]
Inductive pyval : Type :=
| PNone
| PBool (b : bool)
| PNum (q : Qc)
| PStr (s : string)
| PList (l : list pyval)
| PDict (d : list (string * pyval)).

(** The exception classes the three modules raise or catch. [PyError] stands
    for every other subclass of [Exception], carried by its class name. *)
Inductive exn : Type :=
| APIError (status_code : Z) (message : pyval) (type param code : pyval)
| ClientError (msg : string)
| TimeoutError
| PyError (name : string).

Inductive res (A : Type) : Type :=
| Ok (a : A)
| Raise (e : exn).
Arguments Ok {A} a.
Arguments Raise {A} e.

Definition res_bind {A B} (r : res A) (f : A → res B) : res B :=
  match r with Ok a => f a | Raise e => Raise e end.

Notation "'let?' x ':=' r 'in' k" := (res_bind r (fun x => k))
  (at level 10, x name, r at level 100, k at level 200).

Definition is_ok {A} (r : res A) : bool :=
  match r with Ok _ => true | Raise _ => false end.

Module Py.

(** [d[key]] on a JSON object, first binding. *)
Fixpoint assoc (key : string) (d : list (string * pyval)) : option pyval :=
  match d with
  | [] => None
  | (k, v) :: d' => if String.eqb k key then Some v else assoc key d'
  end.

Definition is_str (key : string) (v : pyval) : bool :=
  match v with PStr s => String.eqb s key | _ => false end.

Fixpoint substring_at (key s : string) (fuel : nat) : bool :=
  match fuel with
  | O => String.prefix key s
  | S n =>
      String.prefix key s ||
      match s with
      | EmptyString => false
      | String _ s' => substring_at key s' n
      end
  end.

(** [key in v] for a string [key]. *)
Definition contains (key : string) (v : pyval) : res bool :=
  match v with
  | PDict d => Ok (bool_decide (is_Some (assoc key d)))
  | PList l => Ok (existsb (is_str key) l)
  | PStr s => Ok (substring_at key s (String.length s))
  | _ => Raise (PyError "TypeError")
  end.

(** [v[key]] for a string [key]. *)
Definition getitem (key : string) (v : pyval) : res pyval :=
  match v with
  | PDict d =>
      match assoc key d with
      | Some x => Ok x
      | None => Raise (PyError "KeyError")
      end
  | _ => Raise (PyError "TypeError")
  end.

(** [v.get(key, default)]: only [dict] has the method. *)
Definition get (key : string) (dflt : pyval) (v : pyval) : res pyval :=
  match v with
  | PDict d => Ok (default dflt (assoc key d))
  | _ => Raise (PyError "AttributeError")
  end.

(** [total += v] for a numeric accumulator. *)
Definition add_to (total : Qc) (v : pyval) : res Qc :=
  match v with
  | PNum q => Ok (total + q)%Qc
  | PBool b => Ok (total + (if b then 1 else 0))%Qc
  | _ => Raise (PyError "TypeError")
  end.

(** Truth value of [v] in a condition. *)
Definition truthy (v : pyval) : bool :=
  match v with
  | PNone => false
  | PBool b => b
  | PNum q => negb (bool_decide (q = 0%Qc))
  | PStr s => negb (String.eqb s "")
  | PList l => negb (bool_decide (length l = 0%nat))
  | PDict d => negb (bool_decide (length d = 0%nat))
  end.

(** A string is held as the bytes of its UTF-8 form. The form is extended
    to the code points that UTF-8 leaves out, the surrogates U+D800 to
    U+DFFF, which a Python string may hold: one takes the three bytes
    [ED], [A0] to [BF], [80] to [BF]. *)
Fixpoint has_surrogate (s : string) : bool :=
  match s with
  | EmptyString => false
  | String a s' =>
      (Ascii.eqb a "237"%char &&
       match s' with
       | String b _ =>
           (160 <=? nat_of_ascii b)%nat && (nat_of_ascii b <=? 191)%nat
       | EmptyString => false
       end)
      || has_surrogate s'
  end.

(** [s.encode()]: the bytes of the string, and [UnicodeEncodeError] for a
    string that holds a surrogate. *)
Definition encode (s : string) : res string :=
  if has_surrogate s then Raise (PyError "UnicodeEncodeError") else Ok s.

(** [x or dflt] for an optional string: [None] and the empty string are
    false. *)
Definition or_else (x : option string) (dflt : string) : string :=
  match x with
  | Some s => if String.eqb s "" then dflt else s
  | None => dflt
  end.

(** [v.name] for a name that no built-in type answers to, such as
    [message] or [content]: decoded JSON has no such attribute. *)
Definition getattr (name : string) (v : pyval) : res pyval :=
  Raise (PyError "AttributeError").

End Py.

(** ** [src/api/deepseek_client.py] *)

Module Client.

(** What aiohttp does with one request: either a response arrives, with a
    status, the time it took and the outcome of [await response.json()],
    or [_get_session] / [session.request] raises before any response. *)
Inductive transport_outcome : Type :=
| Responded (status : Z) (request_time : Qc) (body : res pyval)
| RequestFailed (e : exn).

Record ChatCompletionResponse : Type := {
  id : pyval;
  object : pyval;
  created : pyval;
  model : pyval;
  choices : pyval;
  usage : pyval
}.

(** The counters of [DeepSeekClient.__init__]. *)
Record DeepSeekClient : Type := {
  request_count : Z;
  total_tokens : Qc;
  total_request_time : Qc
}.

Definition new_client : DeepSeekClient :=
  {| request_count := 0; total_tokens := 0%Qc; total_request_time := 0%Qc |}.

(** The two [except] clauses that close [_make_request]: a
    [aiohttp.ClientError] and an [asyncio.TimeoutError] become an
    [APIError] with [status_code=0]; anything else passes through. *)
Definition classify (e : exn) : exn :=
  match e with
  | ClientError msg =>
      APIError 0 (PStr ("Network error: " ++ msg)) PNone PNone PNone
  | TimeoutError => APIError 0 (PStr "Request timeout") PNone PNone PNone
  | _ => e
  end.

Definition guarded {A} (r : res A) : res A :=
  match r with Ok a => Ok a | Raise e => Raise (classify e) end.

(** The token accounting of the [response.status == 200] branch:
    [if 'usage' in data: self.total_tokens += data['usage'].get('total_tokens', 0)] *)
Definition count_tokens (total : Qc) (data : pyval) : res Qc :=
  let? present := Py.contains "usage" data in
  if present : bool then
    let? u := Py.getitem "usage" data in
    let? n := Py.get "total_tokens" (PNum 0%Qc) u in
    Py.add_to total n
  else Ok total.

(** The last argument of the success log, [usage=data.get('usage', {})],
    evaluated before [return data]. *)
Definition logged_usage (data : pyval) : res pyval :=
  Py.get "usage" (PDict []) data.

(** The [else] branch: the typed error built from the decoded body. *)
Definition on_error (status : Z) (error_data : pyval) : res pyval :=
  let? err := Py.get "error" (PDict []) error_data in
  let? error_msg := Py.get "message" (PStr "Unknown error") err in
  let? ty := Py.get "type" PNone err in
  let? pa := Py.get "param" PNone err in
  let? co := Py.get "code" PNone err in
  Raise (APIError status error_msg ty pa co).

Definition _make_request (c : DeepSeekClient) (o : transport_outcome)
  : DeepSeekClient * res pyval :=
  match o with
  | RequestFailed e => (c, Raise (classify e))
  | Responded status request_time body =>
      let c1 :=
        {| request_count := request_count c + 1;
           total_tokens := total_tokens c;
           total_request_time := (total_request_time c + request_time)%Qc |} in
      match body with
      | Raise e => (c1, Raise (classify e))
      | Ok data =>
          if status =? 200 then
            match count_tokens (total_tokens c1) data with
            | Ok t =>
                let c2 :=
                  {| request_count := request_count c1;
                     total_tokens := t;
                     total_request_time := total_request_time c1 |} in
                match logged_usage data with
                | Ok _ => (c2, Ok data)
                | Raise e => (c2, Raise (classify e))
                end
            | Raise e => (c1, Raise (classify e))
            end
          else (c1, guarded (on_error status data))
      end
  end.

(** The event loop seen from one client: how many requests it has handed
    to the transport, and the back-off sleeps it has awaited. *)
Record Net : Type := {
  calls : nat;
  sleeps : list Z
}.

Definition net0 : Net := {| calls := 0; sleeps := [] |}.

(** [await asyncio.sleep(wait_time)] *)
Definition sleep (wait_time : Z) (n : Net) : Net :=
  {| calls := calls n; sleeps := sleeps n ++ [wait_time] |}.

Definition build_response (data : pyval) : res ChatCompletionResponse :=
  let? i := Py.getitem "id" data in
  let? o := Py.getitem "object" data in
  let? cr := Py.getitem "created" data in
  let? m := Py.getitem "model" data in
  let? ch := Py.getitem "choices" data in
  let? u := Py.get "usage" (PDict []) data in
  Ok {| id := i; object := o; created := cr; model := m;
        choices := ch; usage := u |}.

(** [except APIError as e] with
    [if e.status_code >= 500 or e.status_code == 429]. An exception of
    another class is not caught by the loop at all. *)
Definition retryable (e : exn) : bool :=
  match e with
  | APIError sc _ _ _ _ => (500 <=? sc) || (sc =? 429)
  | _ => false
  end.

Section Loop.

(** The transport: the outcome of the [n]-th request of the process;
    and [config.api.retry_attempts]. *)
Variable transport : nat → transport_outcome.
Variable retry_attempts : Z.

Definition send (c : DeepSeekClient) (n : Net)
  : DeepSeekClient * Net * res pyval :=
  let '(c', r) := _make_request c (transport (calls n)) in
  (c', {| calls := S (calls n); sleeps := sleeps n |}, r).

(** The [while retry_count < retry_attempts] loop and the two [raise]
    statements after it. An iteration either returns, raises, or
    continues with [retry_count + 1]. *)
Equations? retry_loop (c : DeepSeekClient) (n : Net) (retry_count : Z)
    (last_error : option exn)
  : DeepSeekClient * Net * res ChatCompletionResponse
  by wf (Z.to_nat (retry_attempts - retry_count)) lt :=
  retry_loop c n retry_count last_error with decide (retry_count < retry_attempts) => {
    | right _ with last_error => {
        | Some e := (c, n, Raise e)
        | None :=
            (c, n, Raise (APIError 0 (PStr "Max retry attempts exceeded")
                            PNone PNone PNone)) }
    | left _ with send c n => {
        | (c1, n1, Ok data) := (c1, n1, build_response data)
        | (c1, n1, Raise e) with retryable e => {
            | false := (c1, n1, Raise e)
            | true with decide (retry_count + 1 < retry_attempts) => {
                | left _ :=
                    retry_loop c1
                      (sleep (Z.min (2 ^ (retry_count + 1)) 10) n1)
                      (retry_count + 1) (Some e)
                | right _ := (c1, n1, Raise e) } } } }.
Proof. lia. Qed.

Definition chat_completion (c : DeepSeekClient) (n : Net)
  : DeepSeekClient * Net * res ChatCompletionResponse :=
  retry_loop c n 0 None.

End Loop.

Record Stats : Type := {
  stat_request_count : Z;
  stat_total_tokens : Qc;
  stat_total_request_time : Qc;
  stat_avg_request_time : Qc;
  stat_tokens_per_request : Qc
}.

Definition get_stats (c : DeepSeekClient) : Stats :=
  let per (x : Qc) : Qc :=
    if 0 <? request_count c
    then (x / Q2Qc (inject_Z (request_count c)))%Qc else 0%Qc in
  {| stat_request_count := request_count c;
     stat_total_tokens := total_tokens c;
     stat_total_request_time := total_request_time c;
     stat_avg_request_time := per (total_request_time c);
     stat_tokens_per_request := per (total_tokens c) |}.

(** A run of transport attempts: [_make_request] once per outcome, the
    results kept in order. *)
Fixpoint run_requests (c : DeepSeekClient) (os : list transport_outcome)
  : DeepSeekClient * list (res pyval) :=
  match os with
  | [] => (c, [])
  | o :: os' =>
      let '(c1, r) := _make_request c o in
      let '(c2, rs) := run_requests c1 os' in
      (c2, r :: rs)
  end.

Definition successes (rs : list (res pyval)) : Z :=
  Z.of_nat (length (filter (λ r, is_ok r = true) rs)).

Definition failures (rs : list (res pyval)) : Z :=
  Z.of_nat (length (filter (λ r, is_ok r = false) rs)).

Definition responded (o : transport_outcome) : bool :=
  match o with Responded _ _ _ => true | RequestFailed _ => false end.

(** A decoded body from which the [else] branch can build its
    [APIError]: a JSON object whose [error] member, if it has one, is an
    object too. *)
Definition error_object (error_data : pyval) : bool :=
  match error_data with
  | PDict d =>
      match Py.assoc "error" d with
      | None | Some (PDict _) => true
      | Some _ => false
      end
  | _ => false
  end.

(** The transport answered with the HTTP status [status] and such a body. *)
Definition answers (status : Z) (o : transport_outcome) : bool :=
  match o with
  | Responded s _ (Ok error_data) => (s =? status) && error_object error_data
  | _ => false
  end.

Section Models.

Variable transport : nat → transport_outcome.

(** [get_models]: one request, outside the retry loop, then
    [data.get("data", [])]. *)
Definition get_models (c : DeepSeekClient) (n : Net)
  : DeepSeekClient * Net * res pyval :=
  let '(c', n', r) := send transport c n in
  (c', n', let? data := r in Py.get "data" (PList []) data).

(** [get_model_info]: one request, the decoded body as it is. *)
Definition get_model_info (c : DeepSeekClient) (n : Net)
  : DeepSeekClient * Net * res pyval :=
  send transport c n.

(** [health_check]: [True] after [get_models] returned, [False] after any
    exception. *)
Definition health_check (c : DeepSeekClient) (n : Net)
  : DeepSeekClient * Net * bool :=
  let '(c', n', r) := get_models c n in
  (c', n', match r with Ok _ => true | Raise _ => false end).

End Models.

(** The wait before attempt [k + 1]: [min(2 ** k, 10)]. *)
Definition wait_time (k : Z) : Z := Z.min (2 ^ k) 10.

End Client.

(** ** Properties of the client *)

Module ClientFacts.
Import Client.

(** Only a received response moves [request_count]. *)
Lemma make_request_count c o :
  request_count (fst (_make_request c o)) =
  request_count c + (if responded o then 1 else 0).
Proof.
  destruct o as [status rt [data|e]|e]; simpl; try lia.
  destruct (status =? 200); [|done].
  destruct (count_tokens _ data); [|done].
  by destruct (logged_usage data).
Qed.

(** What a request returns or raises is decided by the transport alone,
    not by the counters. *)
Lemma count_tokens_ok t t' data :
  is_ok (count_tokens t data) = is_ok (count_tokens t' data) ∧
  ∀ e, count_tokens t data = Raise e → count_tokens t' data = Raise e.
Proof.
  unfold count_tokens.
  destruct (Py.contains "usage" data) as [[|]|]; simpl; try done.
  destruct (Py.getitem "usage" data) as [u|]; simpl; [|done].
  destruct (Py.get "total_tokens" (PNum 0%Qc) u) as [v|]; simpl; [|done].
  destruct v; done.
Qed.

Lemma make_request_result c c' o :
  snd (_make_request c o) = snd (_make_request c' o).
Proof.
  destruct o as [status rt [data|e]|e]; simpl; try done.
  destruct (status =? 200); [|done].
  destruct (count_tokens_ok (total_tokens c) (total_tokens c') data)
    as [Hok Herr].
  destruct (count_tokens (total_tokens c) data) as [t|e] eqn:Hc.
  - destruct (count_tokens (total_tokens c') data); [|done].
    by destruct (logged_usage data).
  - by rewrite (Herr e).
Qed.

(** The guard of the loop, spelled out: an [APIError] whose status is at
    least 500 or is 429. *)
Lemma retryable_status e :
  retryable e = true ↔
  ∃ status message type param code,
    e = APIError status message type param code ∧
    (500 ≤ status ∨ status = 429).
Proof.
  split.
  - destruct e as [sc m t p co| | |]; simpl; try done.
    intros H. exists sc, m, t, p, co. split; [done|].
    apply orb_true_iff in H as [H|H]; [left|right]; lia.
  - intros (sc & m & t & p & co & -> & H). simpl.
    apply orb_true_iff. destruct H; [left|right]; lia.
Qed.

(** An error answer with a well-formed body is raised as an [APIError]
    that carries the status of the response. *)
Lemma answers_raises status o c :
  answers status o = true → status ≠ 200 →
  ∃ m t p co, snd (_make_request c o) = Raise (APIError status m t p co).
Proof.
  destruct o as [s rt [data|e]|e]; simpl; try done.
  intros [Hs Hbody]%andb_true_iff Hne.
  apply Z.eqb_eq in Hs as ->.
  destruct (Z.eqb_spec status 200); [done|].
  destruct data as [| | | | |d]; try done. simpl in Hbody |- *.
  unfold on_error. simpl.
  destruct (Py.assoc "error" d) as [[| | | | |err]|]; try done; simpl; eauto.
Qed.

(** A bare network failure or timeout never leaves [_make_request]: it
    is raised as an [APIError] of status 0, which the loop does not
    retry. *)
Lemma network_failure_terminal msg :
  retryable (classify (ClientError msg)) = false.
Proof. done. Qed.

Lemma timeout_terminal : retryable (classify TimeoutError) = false.
Proof. done. Qed.

Section Loop.
Variable transport : nat → transport_outcome.
Variable retry_attempts : Z.

Abbreviation send := (send transport).
Abbreviation retry_loop := (retry_loop transport retry_attempts).
Abbreviation chat_completion := (chat_completion transport retry_attempts).

Lemma send_calls c n : calls (send c n).1.2 = S (calls n).
Proof. unfold Client.send. destruct (_make_request _ _). done. Qed.

Lemma send_sleeps c n : sleeps (send c n).1.2 = sleeps n.
Proof. unfold Client.send. destruct (_make_request _ _). done. Qed.

Lemma send_result c n :
  (send c n).2 = snd (_make_request c (transport (calls n))).
Proof. unfold Client.send. destruct (_make_request _ _). done. Qed.

(** One turn of the loop, as the source reads. *)
Lemma retry_loop_unfold c n retry_count last_error :
  retry_loop c n retry_count last_error =
  if decide (retry_count < retry_attempts) then
    let '(c1, n1, r) := send c n in
    match r with
    | Ok data => (c1, n1, build_response data)
    | Raise e =>
        if retryable e then
          if decide (retry_count + 1 < retry_attempts) then
            retry_loop c1 (sleep (Z.min (2 ^ (retry_count + 1)) 10) n1)
              (retry_count + 1) (Some e)
          else (c1, n1, Raise e)
        else (c1, n1, Raise e)
    end
  else
    match last_error with
    | Some e => (c, n, Raise e)
    | None =>
        (c, n, Raise (APIError 0 (PStr "Max retry attempts exceeded")
                        PNone PNone PNone))
    end.
Proof.
  funelim (Client.retry_loop transport retry_attempts c n retry_count last_error);
    try clear Heqcall;
    repeat match goal with H : _ = _ |- _ => rewrite H; clear H end;
    done.
Qed.

(** Requests handed to the transport are never taken back. *)
Lemma retry_loop_calls_mono c n retry_count last_error :
  (calls n ≤ calls (retry_loop c n retry_count last_error).1.2)%nat.
Proof.
  funelim (Client.retry_loop transport retry_attempts c n retry_count last_error);
    try clear Heqcall; simpl; try lia;
    match goal with H : Client.send _ _ _ = _ |- _ =>
      pose proof (send_calls c n) as Hc; rewrite H in Hc; simpl in Hc
    end; try lia.
  match goal with IH : (_ ≤ _)%nat |- _ => simpl in IH end. lia.
Qed.

(** A turn that starts with attempts left sends one request. *)
Lemma retry_loop_sends c n retry_count last_error :
  retry_count < retry_attempts →
  (S (calls n) ≤ calls (retry_loop c n retry_count last_error).1.2)%nat.
Proof.
  intros Hlt. rewrite retry_loop_unfold. rewrite decide_True by done.
  pose proof (send_calls c n) as Hc.
  destruct (send c n) as [[c1 n1] [data|e]]; simpl in Hc; [simpl; lia|].
  destruct (retryable e); [|simpl; lia].
  destruct (decide _); [|simpl; lia].
  pose proof (retry_loop_calls_mono c1
    (sleep (Z.min (2 ^ (retry_count + 1)) 10) n1) (retry_count + 1) (Some e)).
  simpl in *. lia.
Qed.

(** C1 (as the code has it). A turn of the loop whose request fails with
    [e] is followed by another request exactly when [e] is an [APIError]
    with status at least 500 or equal to 429 and an attempt is left. An
    error of any other status ends the call at once, raised as it is. An
    error answer carries the status of the response, so a 4xx other than
    429 is terminal; a failure of the network or a timeout is raised with
    status 0, and is terminal too. *)
Theorem retry_iff_retryable c n retry_count last_error e :
  retry_count < retry_attempts →
  snd (_make_request c (transport (calls n))) = Raise e →
  let run := retry_loop c n retry_count last_error in
  ((S (calls n) < calls run.1.2)%nat ↔
     (∃ status message type param code,
        e = APIError status message type param code ∧
        (500 ≤ status ∨ status = 429))
     ∧ retry_count + 1 < retry_attempts) ∧
  ((∀ status message type param code,
      e = APIError status message type param code →
      status < 500 ∧ status ≠ 429) →
   calls run.1.2 = S (calls n) ∧ run.2 = Raise e) ∧
  (∀ status,
     answers status (transport (calls n)) = true → status ≠ 200 →
     ∃ message type param code, e = APIError status message type param code) ∧
  (∀ failure,
     transport (calls n) = RequestFailed failure →
     failure = TimeoutError ∨ (∃ msg, failure = ClientError msg) →
     (∃ message, e = APIError 0 message PNone PNone PNone) ∧
     calls run.1.2 = S (calls n) ∧ run.2 = Raise e).
Proof.
  intros Hlt He run.
  assert (Hterminal : retryable e = false →
                      calls run.1.2 = S (calls n) ∧ run.2 = Raise e).
  { intros Hre. subst run.
    rewrite retry_loop_unfold, decide_True by done.
    pose proof (send_calls c n) as Hc.
    pose proof (send_result c n) as Hr. rewrite He in Hr.
    destruct (send c n) as [[c1 n1] out]. simpl in Hc, Hr. subst out.
    rewrite Hre. simpl. split; [lia|done]. }
  split; [|split; [|split]].
  - rewrite <- retryable_status. subst run.
    rewrite retry_loop_unfold, decide_True by done.
    pose proof (send_calls c n) as Hc.
    pose proof (send_result c n) as Hr. rewrite He in Hr.
    destruct (send c n) as [[c1 n1] out]. simpl in Hc, Hr. subst out.
    destruct (retryable e) eqn:Hre.
    + destruct (decide (retry_count + 1 < retry_attempts)) as [Hmore|Hlast].
      * pose proof (retry_loop_sends c1
          (sleep (Z.min (2 ^ (retry_count + 1)) 10) n1) (retry_count + 1)
          (Some e) Hmore) as Hs.
        simpl in Hs. split; [done|lia].
      * simpl. split; [lia|intros [_ ?]; lia].
    + simpl. split; [lia|intros [? _]; done].
  - intros Hlow. apply Hterminal.
    destruct (retryable e) eqn:Hre; [|done].
    apply retryable_status in Hre as (sc & m & t & p & co & -> & Hsc).
    destruct (Hlow sc m t p co eq_refl). lia.
  - intros status Hans Hne.
    destruct (answers_raises status _ c Hans Hne) as (m & t & p & co & Hraise).
    rewrite He in Hraise. injection Hraise as ->. eauto.
  - intros failure Hfail Hkind. rewrite Hfail in He. simpl in He.
    injection He as <-.
    destruct Hkind as [->|[msg ->]]; simpl;
      (split; [eauto|]); by apply Hterminal.
Qed.



End Loop.

(** C2 (as the code has it). [request_count], as [get_stats] reports it,
    grows by one for each attempt that received a response, whatever its
    status; an attempt that ends in a network failure or a timeout leaves
    it unchanged. *)
Theorem request_count_counts_responses os : ∀ c,
  stat_request_count (get_stats (fst (run_requests c os))) =
  request_count c + Z.of_nat (length (filter (λ o, responded o = true) os)).
Proof.
  induction os as [|o os IH]; intros c; simpl; [lia|].
  pose proof (make_request_count c o) as Hc.
  destruct (_make_request c o) as [c1 r]. simpl in Hc.
  specialize (IH c1). destruct (run_requests c1 os) as [c2 rs].
  simpl in IH |- *. rewrite IH, Hc, filter_cons.
  destruct o; simpl; lia.
Qed.

(** Every attempt is either a success or a failure. *)
Lemma successes_failures c os :
  successes (snd (run_requests c os)) + failures (snd (run_requests c os)) =
  Z.of_nat (length os).
Proof.
  revert c. induction os as [|o os IH]; intros c; simpl; [done|].
  destruct (_make_request c o) as [c1 r]. specialize (IH c1).
  destruct (run_requests c1 os) as [c2 rs]. simpl in *.
  unfold successes, failures in *. rewrite !filter_cons.
  destruct r; simpl; repeat case_decide; simpl; try done; lia.
Qed.

(** C1, at a refused connection and at a timeout with three attempts
    configured: one request is sent and the error is raised at once. *)
Lemma network_failure_not_retried :
  chat_completion (λ _, RequestFailed (ClientError "Connection refused")) 3
    new_client net0
  = (new_client, {| calls := 1; sleeps := [] |},
     Raise (APIError 0 (PStr "Network error: Connection refused")
              PNone PNone PNone))
  ∧ chat_completion (λ _, RequestFailed TimeoutError) 3 new_client net0
  = (new_client, {| calls := 1; sleeps := [] |},
     Raise (APIError 0 (PStr "Request timeout") PNone PNone PNone)).
Proof. split; reflexivity. Qed.

(** C2, at one success, one refused connection and one timeout: three
    attempts, and a request count of one. *)
Lemma request_count_misses_network_failures :
  let os := [Responded 200 1%Qc (Ok (PDict [("id", PStr "r1")]));
             RequestFailed (ClientError "Connection reset");
             RequestFailed TimeoutError] in
  let run := run_requests new_client os in
  successes (snd run) = 1 ∧ failures (snd run) = 2 ∧
  stat_request_count (get_stats (fst run)) = 1 ∧
  stat_request_count (get_stats (fst run)) ≠
    successes (snd run) + failures (snd run).
Proof. vm_compute. repeat split; discriminate. Qed.

(** *** [_make_request], [chat_completion] and [health_check] beyond the
    retry rule *)

Lemma on_error_raises status error_data :
  ∃ e, on_error status error_data = Raise e.
Proof.
  unfold on_error.
  destruct (Py.get "error" (PDict []) error_data) as [err|]; simpl; [|eauto].
  destruct err; simpl; eauto.
Qed.

(** X1. [_make_request] returns a body only for a response of status 200,
    and the body it returns is the decoded one. *)
Theorem make_request_ok_is_200 c o data :
  snd (_make_request c o) = Ok data →
  ∃ request_time, o = Responded 200 request_time (Ok data).
Proof.
  destruct o as [status rt [d|e]|e]; simpl; try done.
  destruct (Z.eqb_spec status 200) as [->|Hne].
  - destruct (count_tokens _ d); [|done].
    destruct (logged_usage d); [|done]. intros [= <-]. eauto.
  - destruct (on_error_raises status d) as [e ->]. done.
Qed.

(** X2. Whatever [_make_request] raises, it is not a bare client error or
    timeout: both leave as an [APIError] of status 0. *)
Theorem make_request_raises_classified c o e :
  snd (_make_request c o) = Raise e →
  (∀ msg, e ≠ ClientError msg) ∧ e ≠ TimeoutError.
Proof.
  intros He.
  assert (∃ e0, e = classify e0) as [e0 ->].
  { destruct o as [status rt [d|e1]|e1]; simpl in He.
    - destruct (status =? 200).
      + destruct (count_tokens _ d).
        * destruct (logged_usage d); [done|]. injection He as <-. eauto.
        * injection He as <-. eauto.
      + destruct (on_error status d); [done|]. injection He as <-. eauto.
    - injection He as <-. eauto.
    - injection He as <-. eauto. }
  destruct e0; done.
Qed.

Lemma wait_time_bounds k : 1 ≤ k → 2 ≤ wait_time k ≤ 10.
Proof.
  intros Hk. unfold wait_time.
  assert (2 ^ 1 ≤ 2 ^ k) by (apply Z.pow_le_mono_r; lia). lia.
Qed.

Section Retry.

Variable transport : nat → transport_outcome.
Variable retry_attempts : Z.

Abbreviation send := (send transport).
Abbreviation retry_loop := (retry_loop transport retry_attempts).
Abbreviation chat_completion := (chat_completion transport retry_attempts).

Lemma retry_loop_bounded c n retry_count last_error :
  (calls (retry_loop c n retry_count last_error).1.2
   ≤ calls n + Z.to_nat (retry_attempts - retry_count))%nat.
Proof.
  remember (Z.to_nat (retry_attempts - retry_count)) as k eqn:Hk.
  revert c n retry_count last_error Hk.
  induction k as [k IH] using lt_wf_ind. intros c n r le Hk.
  rewrite retry_loop_unfold.
  destruct (decide (r < retry_attempts)); [|destruct le; simpl; lia].
  pose proof (send_calls transport c n) as Hc.
  destruct (send c n) as [[c1 n1] [data|e]]; simpl in Hc; [simpl; lia|].
  destruct (retryable e); [|simpl; lia].
  destruct (decide (r + 1 < retry_attempts)); [|simpl; lia].
  specialize (IH (Z.to_nat (retry_attempts - (r + 1))) ltac:(lia) c1
                (sleep (Z.min (2 ^ (r + 1)) 10) n1) (r + 1) (Some e) eq_refl).
  simpl in IH. lia.
Qed.

(** X3. Whatever the transport does, [chat_completion] sends at most
    [retry_attempts] requests, and none at all when that number is not
    positive. *)
Theorem chat_completion_bounded c n :
  Z.of_nat (calls n) ≤ Z.of_nat (calls (chat_completion c n).1.2)
    ≤ Z.of_nat (calls n) + Z.max 0 retry_attempts.
Proof.
  pose proof (retry_loop_bounded c n 0 None).
  pose proof (retry_loop_calls_mono transport retry_attempts c n 0 None).
  unfold Client.chat_completion. lia.
Qed.

Lemma retry_loop_outcome c n retry_count last_error :
  retry_count < retry_attempts →
  ∀ c0, (retry_loop c n retry_count last_error).2 =
        res_bind
          (snd (_make_request c0
                  (transport (calls (retry_loop c n retry_count last_error).1.2 - 1))))
          build_response.
Proof.
  remember (Z.to_nat (retry_attempts - retry_count)) as k eqn:Hk.
  revert c n retry_count last_error Hk.
  induction k as [k IH] using lt_wf_ind. intros c n r le Hk Hlt c0.
  rewrite retry_loop_unfold, decide_True by done.
  pose proof (send_calls transport c n) as Hc.
  pose proof (send_result transport c n) as Hr.
  rewrite (make_request_result c c0) in Hr.
  destruct (send c n) as [[c1 n1] out]; simpl in Hc, Hr.
  assert (Hhere : (c1, n1, res_bind out build_response).2 =
                  res_bind (snd (_make_request c0 (transport (calls n1 - 1))))
                    build_response).
  { simpl. rewrite Hc, Hr. by replace (S (calls n) - 1)%nat with (calls n) by lia. }
  destruct out as [data|e]; [done|].
  destruct (retryable e); [|done].
  destruct (decide (r + 1 < retry_attempts)); [|done].
  by apply (IH (Z.to_nat (retry_attempts - (r + 1))) ltac:(lia)).
Qed.

(** X4. With at least one attempt configured, what [chat_completion]
    returns or raises is what its last request returned or raised (the
    body then built into a response): the error made up after the loop is
    never the one raised. *)
Theorem outcome_is_last_request c n :
  1 ≤ retry_attempts →
  let run := chat_completion c n in
  (calls n < calls run.1.2)%nat ∧
  ∀ c0, run.2 =
        res_bind (snd (_make_request c0 (transport (calls run.1.2 - 1))))
          build_response.
Proof.
  intros Hn run. subst run. unfold Client.chat_completion. split.
  - pose proof (retry_loop_sends transport retry_attempts c n 0 None). lia.
  - apply retry_loop_outcome. lia.
Qed.

Lemma retry_loop_backoff c n retry_count last_error :
  retry_count < retry_attempts →
  let run := retry_loop c n retry_count last_error in
  sleeps run.1.2 =
  sleeps n ++ (wait_time <$>
                 seqZ (retry_count + 1) (Z.of_nat (calls run.1.2 - calls n) - 1)).
Proof.
  remember (Z.to_nat (retry_attempts - retry_count)) as k eqn:Hk.
  revert c n retry_count last_error Hk.
  induction k as [k IH] using lt_wf_ind. intros c n r le Hk Hlt. simpl.
  rewrite retry_loop_unfold, decide_True by done.
  pose proof (send_calls transport c n) as Hc.
  pose proof (send_sleeps transport c n) as Hs.
  destruct (send c n) as [[c1 n1] out]; simpl in Hc, Hs.
  assert (Hhere : sleeps n1 =
            sleeps n ++ (wait_time <$> seqZ (r + 1) (Z.of_nat (calls n1 - calls n) - 1))).
  { rewrite Hc, Hs. replace (Z.of_nat (S (calls n) - calls n) - 1) with 0 by lia.
    by rewrite app_nil_r. }
  destruct out as [data|e]; [done|].
  destruct (retryable e); [|done].
  destruct (decide (r + 1 < retry_attempts)) as [Hmore|]; [|done].
  pose proof (retry_loop_sends transport retry_attempts c1
                (sleep (Z.min (2 ^ (r + 1)) 10) n1) (r + 1) (Some e) Hmore) as Hsent.
  rewrite (IH (Z.to_nat (retry_attempts - (r + 1))) ltac:(lia) c1
             (sleep (Z.min (2 ^ (r + 1)) 10) n1) (r + 1) (Some e) eq_refl Hmore).
  simpl in Hsent |- *. rewrite Hs, <- app_assoc. f_equal.
  set (run := Client.retry_loop _ _ _ _ _ _) in *.
  rewrite (seqZ_cons (r + 1)) by lia. simpl.
  change (Z.min (2 ^ (r + 1)) 10) with (wait_time (r + 1)).
  do 3 f_equal; lia.
Qed.

(** X5. With at least one attempt configured, [chat_completion] sleeps
    exactly once between two consecutive requests, for [min(2 ** k, 10)]
    seconds before request [k + 1]: never less than 2 seconds, never more
    than 10. *)
Theorem backoff_schedule c n :
  1 ≤ retry_attempts →
  let run := chat_completion c n in
  let waits := wait_time <$> seqZ 1 (Z.of_nat (calls run.1.2 - calls n) - 1) in
  sleeps run.1.2 = sleeps n ++ waits ∧
  Forall (λ w, 2 ≤ w ≤ 10) waits.
Proof.
  intros Hn run waits. split.
  - apply (retry_loop_backoff c n 0 None). lia.
  - subst waits. apply Forall_fmap, Forall_forall. intros k Hk.
    apply elem_of_seqZ in Hk. apply wait_time_bounds. lia.
Qed.



(** X7. [health_check] sends one request, never sleeps and never raises; it
    answers [True] exactly when that request returned a JSON object. *)
Theorem health_check_one_request c n :
  let run := health_check transport c n in
  calls run.1.2 = S (calls n) ∧
  sleeps run.1.2 = sleeps n ∧
  (run.2 = true ↔
   ∃ d, snd (_make_request c (transport (calls n))) = Ok (PDict d)).
Proof.
  unfold health_check, get_models. simpl.
  pose proof (send_calls transport c n) as Hc.
  pose proof (send_sleeps transport c n) as Hs.
  pose proof (send_result transport c n) as Hr.
  destruct (send c n) as [[c1 n1] out]; simpl in *. subst out.
  split; [done|]. split; [done|].
  destruct (snd (_make_request c (transport (calls n)))) as [data|e]; simpl.
  - destruct data; simpl; split; try done; try (intros [d [= ]]); eauto.
  - split; [done|]. by intros [d ?].
Qed.

End Retry.

(** *** Concrete transports *)

(** A service that answers 503 with an empty JSON object, and one that
    answers 500 with an error object. *)
Definition unavailable : nat → transport_outcome :=
  λ _, Responded 503 1%Qc (Ok (PDict [])).

Definition always_500 : nat → transport_outcome :=
  λ _, Responded 500 1%Qc
         (Ok (PDict [("error", PDict [("message", PStr "Internal error")])])).

Lemma retry_iff_retryable_witness :
  0 < 3 ∧
  snd (_make_request new_client (unavailable (calls net0))) =
    Raise (APIError 503 (PStr "Unknown error") PNone PNone PNone) ∧
  let e := APIError 503 (PStr "Unknown error") PNone PNone PNone in
  let run := retry_loop unavailable 3 new_client net0 0 None in
  ((S (calls net0) < calls run.1.2)%nat ↔
     (∃ status message type param code,
        e = APIError status message type param code ∧
        (500 ≤ status ∨ status = 429))
     ∧ 0 + 1 < 3) ∧
  ((∀ status message type param code,
      e = APIError status message type param code →
      status < 500 ∧ status ≠ 429) →
   calls run.1.2 = S (calls net0) ∧ run.2 = Raise e) ∧
  (∀ status,
     answers status (unavailable (calls net0)) = true → status ≠ 200 →
     ∃ message type param code, e = APIError status message type param code) ∧
  (∀ failure,
     unavailable (calls net0) = RequestFailed failure →
     failure = TimeoutError ∨ (∃ msg, failure = ClientError msg) →
     (∃ message, e = APIError 0 message PNone PNone PNone) ∧
     calls run.1.2 = S (calls net0) ∧ run.2 = Raise e).
Proof.
  split; [lia|]. split; [reflexivity|].
  apply (retry_iff_retryable unavailable 3 new_client net0 0 None);
    [lia|reflexivity].
Defined.


(** Three attempts against [always_500]: three requests, two sleeps of 2
    and 4 seconds, the 500 error raised. *)
Example three_attempts_then_raise :
  let run := chat_completion always_500 3 new_client net0 in
  run.1.2 = {| calls := 3; sleeps := [2; 4] |} ∧
  run.2 = Raise (APIError 500 (PStr "Internal error") PNone PNone PNone) ∧
  request_count run.1.1 = 3.
Proof. by vm_compute. Qed.

(** A 400 answer: one request, no sleep. *)
Example bad_request_not_retried :
  let run := chat_completion (λ _, Responded 400 1%Qc (Ok (PDict []))) 3
               new_client net0 in
  run.1.2 = {| calls := 1; sleeps := [] |} ∧
  run.2 = Raise (APIError 400 (PStr "Unknown error") PNone PNone PNone).
Proof. by vm_compute. Qed.




Lemma make_request_ok_is_200_witness :
  snd (_make_request new_client (Responded 200 1%Qc (Ok (PDict [])))) = Ok (PDict []) ∧
  ∃ request_time,
    Responded 200 1%Qc (Ok (PDict [])) = Responded 200 request_time (Ok (PDict [])).
Proof.
  split; [reflexivity|].
  apply (make_request_ok_is_200 new_client). reflexivity.
Defined.

Lemma make_request_raises_classified_witness :
  snd (_make_request new_client (RequestFailed TimeoutError)) =
    Raise (APIError 0 (PStr "Request timeout") PNone PNone PNone) ∧
  (∀ msg, APIError 0 (PStr "Request timeout") PNone PNone PNone ≠ ClientError msg) ∧
  APIError 0 (PStr "Request timeout") PNone PNone PNone ≠ TimeoutError.
Proof.
  split; [reflexivity|].
  apply (make_request_raises_classified new_client (RequestFailed TimeoutError)).
  reflexivity.
Defined.

Lemma outcome_is_last_request_witness :
  1 ≤ 3 ∧
  let run := chat_completion always_500 3 new_client net0 in
  (calls net0 < calls run.1.2)%nat ∧
  ∀ c0, run.2 =
        res_bind (snd (_make_request c0 (always_500 (calls run.1.2 - 1))))
          build_response.
Proof. split; [lia|]. apply outcome_is_last_request. lia. Defined.

Lemma backoff_schedule_witness :
  1 ≤ 3 ∧
  let run := chat_completion always_500 3 new_client net0 in
  let waits := wait_time <$> seqZ 1 (Z.of_nat (calls run.1.2 - calls net0) - 1) in
  sleeps run.1.2 = sleeps net0 ++ waits ∧
  Forall (λ w, 2 ≤ w ≤ 10) waits.
Proof. split; [lia|]. apply backoff_schedule. lia. Defined.


End ClientFacts.

(** ** [src/storage/cache_manager.py] *)

Module Cache.

(** Seconds, as the clocks count them. *)
Definition secs (z : Z) : Qc := Q2Qc (inject_Z z).

(** What the outside decides during one call on the cache: the reading of
    the clock, and whether the Redis server and the disk store answer.
    One clock serves the three tiers, so that expiry times compare. *)
Record Env : Type := {
  now : Qc;
  redis_down : bool;
  disk_down : bool
}.

Section Manager.

(** Cached values are opaque. [serialize] is the [json.dumps] / [str]
    step of [set]; [deserialize] is [json.loads] with its fall-back to
    the raw string in [get]. *)
Context {V : Type}.
Variable serialize : V → res string.
Variable deserialize : string → V.

(** [_redis_db] is the key space of the Redis server and [_disk_cache]
    the content of the [diskcache.Cache], each entry with the time it
    expires. [stats] is the dictionary of counters; [__init__] creates
    its nine keys and nothing removes one. *)
Record CacheManager : Type := {
  cache_ttl : Z;
  _memory_cache : gmap string V;
  _memory_cache_ttl : gmap string Qc;
  _redis_client : bool;
  _redis_available : bool;
  _redis_db : gmap string (string * Qc);
  _disk_cache : gmap string (V * Qc);
  stats : gmap string Z
}.

Definition stats0 : gmap string Z :=
  list_to_map
    [("memory_hits", 0); ("memory_misses", 0); ("redis_hits", 0);
     ("redis_misses", 0); ("disk_hits", 0); ("disk_misses", 0);
     ("memory_sets", 0); ("redis_sets", 0); ("disk_sets", 0)].

(** [CacheManager.__init__], before or after [_initialize_redis] found a
    server ([redis]). *)
Definition new_cache (ttl : Z) (redis : bool) : CacheManager :=
  {| cache_ttl := ttl;
     _memory_cache := ∅;
     _memory_cache_ttl := ∅;
     _redis_client := redis;
     _redis_available := redis;
     _redis_db := ∅;
     _disk_cache := ∅;
     stats := stats0 |}.

Definition stat (name : string) (s : CacheManager) : Z :=
  default 0 (stats s !! name).

Definition with_memory (m : gmap string V) (t : gmap string Qc)
    (s : CacheManager) : CacheManager :=
  {| cache_ttl := cache_ttl s;
     _memory_cache := m;
     _memory_cache_ttl := t;
     _redis_client := _redis_client s;
     _redis_available := _redis_available s;
     _redis_db := _redis_db s;
     _disk_cache := _disk_cache s;
     stats := stats s |}.

Definition with_redis_db (db : gmap string (string * Qc))
    (s : CacheManager) : CacheManager :=
  {| cache_ttl := cache_ttl s;
     _memory_cache := _memory_cache s;
     _memory_cache_ttl := _memory_cache_ttl s;
     _redis_client := _redis_client s;
     _redis_available := _redis_available s;
     _redis_db := db;
     _disk_cache := _disk_cache s;
     stats := stats s |}.

Definition with_disk (d : gmap string (V * Qc))
    (s : CacheManager) : CacheManager :=
  {| cache_ttl := cache_ttl s;
     _memory_cache := _memory_cache s;
     _memory_cache_ttl := _memory_cache_ttl s;
     _redis_client := _redis_client s;
     _redis_available := _redis_available s;
     _redis_db := _redis_db s;
     _disk_cache := d;
     stats := stats s |}.

(** [self.stats[name] += 1] *)
Definition bump (name : string) (s : CacheManager) : CacheManager :=
  {| cache_ttl := cache_ttl s;
     _memory_cache := _memory_cache s;
     _memory_cache_ttl := _memory_cache_ttl s;
     _redis_client := _redis_client s;
     _redis_available := _redis_available s;
     _redis_db := _redis_db s;
     _disk_cache := _disk_cache s;
     stats := <[name := stat name s + 1]> (stats s) |}.

(** *** The two outer stores *)

(** [GET key]: the value if the key is there and its time has not
    passed. The server drops a key once the clock is past its expiry, so
    the key is still served at the instant of expiry itself. *)
Definition redis_get (env : Env) (key : string) (s : CacheManager)
  : res (option string) :=
  if redis_down env then Raise (PyError "ConnectionError")
  else Ok (match _redis_db s !! key with
           | Some (value, expires_at) =>
               if bool_decide (now env ≤ expires_at)%Qc
               then Some value else None
           | None => None
           end).

(** [SETEX key seconds value]; the server refuses a time to live that is
    not positive. *)
Definition redis_setex (env : Env) (key : string) (expire : Z)
    (value : string) (s : CacheManager) : res (gmap string (string * Qc)) :=
  if redis_down env then Raise (PyError "ConnectionError")
  else if expire <=? 0 then Raise (PyError "ResponseError")
  else Ok (<[key := (value, (now env + secs expire)%Qc)]> (_redis_db s)).

(** [key in cache] followed by [cache.get(key)]: both select the entry
    with [expire_time > now], so an entry is skipped from the instant of
    its expiry on. *)
Definition disk_lookup (env : Env) (key : string) (s : CacheManager)
  : res (option V) :=
  if disk_down env then Raise (PyError "OperationalError")
  else Ok (match _disk_cache s !! key with
           | Some (value, expires_at) =>
               if bool_decide (now env < expires_at)%Qc
               then Some value else None
           | None => None
           end).

(** [cache.set(key, value, expire=expire)] *)
Definition disk_set (env : Env) (key : string) (value : V) (expire : Z)
    (s : CacheManager) : res (gmap string (V * Qc)) :=
  if disk_down env then Raise (PyError "OperationalError")
  else Ok (<[key := (value, (now env + secs expire)%Qc)]> (_disk_cache s)).

(** *** The manager *)

Definition _is_cache_valid (env : Env) (key : string)
    (ttl_dict : gmap string Qc) : bool :=
  match ttl_dict !! key with
  | None => false
  | Some expires_at => bool_decide (now env < expires_at)%Qc
  end.

Definition _set_memory_cache (env : Env) (key : string) (value : V)
    (expire : Z) (s : CacheManager) : CacheManager :=
  bump "memory_sets"
    (with_memory (<[key := value]> (_memory_cache s))
                 (<[key := (now env + secs expire)%Qc]> (_memory_cache_ttl s))
                 s).

(** Step 3 of [get]: the disk tier. *)
Definition get_disk (env : Env) (key : string) (dflt : V)
    (s : CacheManager) : CacheManager * res V :=
  match disk_lookup env key s with
  | Ok (Some cached_value) =>
      let s1 := _set_memory_cache env key cached_value (cache_ttl s) s in
      (bump "disk_hits" s1, Ok cached_value)
  | Ok None | Raise _ => (bump "disk_misses" s, Ok dflt)
  end.

(** Step 2 of [get]: the Redis tier, then the rest. *)
Definition get_redis (env : Env) (key : string) (dflt : V)
    (s : CacheManager) : CacheManager * res V :=
  let miss := get_disk env key dflt (bump "redis_misses" s) in
  if _redis_available s && _redis_client s then
    match redis_get env key s with
    | Ok (Some value) =>
        let cached_value := deserialize value in
        let s1 := _set_memory_cache env key cached_value (cache_ttl s) s in
        (bump "redis_hits" s1, Ok cached_value)
    | Ok None | Raise _ => miss
    end
  else miss.

Definition get (env : Env) (key : string) (dflt : V) (s : CacheManager)
  : CacheManager * res V :=
  match _memory_cache s !! key with
  | Some value =>
      if _is_cache_valid env key (_memory_cache_ttl s) then
        (bump "memory_hits" s, Ok value)
      else
        let s1 := with_memory (delete key (_memory_cache s))
                              (delete key (_memory_cache_ttl s)) s in
        get_redis env key dflt (bump "memory_misses" s1)
  | None => get_redis env key dflt (bump "memory_misses" s)
  end.

Definition set (env : Env) (key : string) (value : V) (expire : option Z)
    (s : CacheManager) : CacheManager * res unit :=
  let expire := default (cache_ttl s) expire in
  let s1 := _set_memory_cache env key value expire s in
  let s2 :=
    if _redis_available s1 && _redis_client s1 then
      match (let? serialized := serialize value in
             redis_setex env key expire serialized s1) with
      | Ok db => bump "redis_sets" (with_redis_db db s1)
      | Raise _ => s1
      end
    else s1 in
  let s3 :=
    match disk_set env key value expire s2 with
    | Ok d => bump "disk_sets" (with_disk d s2)
    | Raise _ => s2
    end in
  (s3, Ok tt).

(** The tier-1 test of [get], as a predicate on the state. *)
Definition memory_live (env : Env) (key : string) (s : CacheManager) : bool :=
  bool_decide (is_Some (_memory_cache s !! key))
  && _is_cache_valid env key (_memory_cache_ttl s).

(** What the Redis step of [get] would serve. *)
Definition redis_serves (env : Env) (key : string) (s : CacheManager)
  : option string :=
  if _redis_available s && _redis_client s then
    match redis_get env key s with
    | Ok (Some value) => Some value
    | _ => None
    end
  else None.

(** What the tiers behind memory would serve: Redis first, then disk. *)
Definition slow_value (env : Env) (key : string) (s : CacheManager)
  : option V :=
  match redis_serves env key s with
  | Some value => Some (deserialize value)
  | None =>
      match disk_lookup env key s with
      | Ok (Some value) => Some value
      | _ => None
      end
  end.

(** *** The other operations of the manager *)

(** [DEL key], [EXISTS key] and [FLUSHDB]. *)
Definition redis_delete (env : Env) (key : string) (s : CacheManager)
  : res (gmap string (string * Qc)) :=
  if redis_down env then Raise (PyError "ConnectionError")
  else Ok (delete key (_redis_db s)).

Definition redis_exists (env : Env) (key : string) (s : CacheManager) : res Z :=
  let? value := redis_get env key s in
  Ok (match value with Some _ => 1 | None => 0 end).

Definition redis_flushdb (env : Env) (s : CacheManager)
  : res (gmap string (string * Qc)) :=
  if redis_down env then Raise (PyError "ConnectionError") else Ok ∅.

(** [if key in cache: del cache[key]]: the test skips an entry whose time
    has passed. *)
Definition disk_remove (env : Env) (key : string) (s : CacheManager)
  : res (gmap string (V * Qc)) :=
  let? found := disk_lookup env key s in
  Ok (match found with
      | Some _ => delete key (_disk_cache s)
      | None => _disk_cache s
      end).

(** [cache.clear()] *)
Definition disk_clear (env : Env) (s : CacheManager)
  : res (gmap string (V * Qc)) :=
  if disk_down env then Raise (PyError "OperationalError") else Ok ∅.

(** [CacheManager.delete] *)
Definition delete_ (env : Env) (key : string) (s : CacheManager)
  : CacheManager * res unit :=
  let s1 := with_memory (delete key (_memory_cache s))
                        (delete key (_memory_cache_ttl s)) s in
  let s2 :=
    if _redis_available s1 && _redis_client s1 then
      match redis_delete env key s1 with
      | Ok db => with_redis_db db s1
      | Raise _ => s1
      end
    else s1 in
  let s3 :=
    match disk_remove env key s2 with
    | Ok d => with_disk d s2
    | Raise _ => s2
    end in
  (s3, Ok tt).

(** [CacheManager.clear] *)
Definition clear (env : Env) (s : CacheManager) : CacheManager * res unit :=
  let s1 := with_memory ∅ ∅ s in
  let s2 :=
    if _redis_available s1 && _redis_client s1 then
      match redis_flushdb env s1 with
      | Ok db => with_redis_db db s1
      | Raise _ => s1
      end
    else s1 in
  let s3 :=
    match disk_clear env s2 with
    | Ok d => with_disk d s2
    | Raise _ => s2
    end in
  (s3, Ok tt).

(** [CacheManager.exists]: the answer of the first tier that gives one. A
    Redis that answers ends the search, whatever it answers. *)
Definition exists_ (env : Env) (key : string) (s : CacheManager) : bool :=
  if memory_live env key s then true
  else
    let on_disk :=
      match disk_lookup env key s with
      | Ok (Some _) => true
      | Ok None | Raise _ => false
      end in
    if _redis_available s && _redis_client s then
      match redis_exists env key s with
      | Ok count => 0 <? count
      | Raise _ => on_disk
      end
    else on_disk.

(** [cleanup_expired]: the keys whose expiry is not after now, then the
    loop that deletes them; the number it logs is returned. *)
Definition expired_keys (env : Env) (s : CacheManager) : list string :=
  (map_to_list
     (filter (λ kt : string * Qc, (kt.2 ≤ now env)%Qc) (_memory_cache_ttl s))).*1.

Definition purge (s : CacheManager) (key : string) : CacheManager :=
  with_memory (delete key (_memory_cache s))
              (delete key (_memory_cache_ttl s)) s.

Definition cleanup_expired (env : Env) (s : CacheManager)
  : CacheManager * nat :=
  let keys := expired_keys env s in
  (fold_left purge keys s, length keys).

(** The two aggregates of [get_stats]. *)
Definition total_hits (s : CacheManager) : Z :=
  stat "memory_hits" s + stat "redis_hits" s + stat "disk_hits" s.

Definition total_requests (s : CacheManager) : Z :=
  stat "memory_hits" s + stat "memory_misses" s +
  stat "redis_hits" s + stat "redis_misses" s +
  stat "disk_hits" s + stat "disk_misses" s.

Definition hit_rate (s : CacheManager) : Qc :=
  if 0 <? total_requests s
  then (Q2Qc (inject_Z (total_hits s)) / Q2Qc (inject_Z (total_requests s)))%Qc
  else 0%Qc.

(** What memory answers for [key], if it answers. *)
Definition live_value (env : Env) (key : string) (s : CacheManager)
  : option V :=
  match _memory_cache s !! key with
  | Some value =>
      if _is_cache_valid env key (_memory_cache_ttl s) then Some value else None
  | None => None
  end.

(** Every key of one memory map is a key of the other. *)
Definition aligned (s : CacheManager) : Prop :=
  ∀ key, is_Some (_memory_cache s !! key) ↔ is_Some (_memory_cache_ttl s !! key).

End Manager.

Arguments CacheManager V : clear implicits.

End Cache.

(** ** Properties of the cache *)

Module CacheFacts.
Import Cache.

Section Manager.
Context {V : Type}.
Variable serialize : V → res string.
Variable deserialize : string → V.

Implicit Types (s : CacheManager V) (env : Env) (key : string).

Lemma stat_bump_eq name s : stat name (bump name s) = stat name s + 1.
Proof. unfold stat, bump. simpl. by rewrite lookup_insert_eq. Qed.

Lemma stat_bump_ne name name' s :
  name ≠ name' → stat name' (bump name s) = stat name' s.
Proof. intros. unfold stat, bump. simpl. by rewrite lookup_insert_ne. Qed.

Lemma stat_with_memory name m t s : stat name (with_memory m t s) = stat name s.
Proof. done. Qed.

Lemma stat_with_redis_db name db s : stat name (with_redis_db db s) = stat name s.
Proof. done. Qed.

Lemma stat_with_disk name d s : stat name (with_disk d s) = stat name s.
Proof. done. Qed.

(** Read a counter through the updates of one call. *)
Ltac counters :=
  unfold _set_memory_cache;
  repeat first
    [ rewrite stat_bump_eq
    | rewrite stat_bump_ne by done
    | rewrite stat_with_memory
    | rewrite stat_with_redis_db
    | rewrite stat_with_disk ].

(** *** [set] *)

Lemma set_memory env key value expire s :
  _memory_cache (fst (set serialize env key value expire s)) =
    <[key := value]> (_memory_cache s) ∧
  _memory_cache_ttl (fst (set serialize env key value expire s)) =
    <[key := (now env + secs (default (cache_ttl s) expire))%Qc]>
      (_memory_cache_ttl s).
Proof.
  unfold set. simpl.
  destruct (_redis_available s && _redis_client s);
    [destruct (res_bind _ _)|];
    destruct (disk_set _ _ _ _ _); done.
Qed.

(** C8. [set] writes the memory tier and returns normally, whether or
    not Redis is configured, reachable and accepts the write, and
    whether or not the disk store accepts it. *)
Theorem set_never_raises env key value expire s :
  snd (set serialize env key value expire s) = Ok tt ∧
  _memory_cache (fst (set serialize env key value expire s)) !! key
    = Some value ∧
  stat "memory_sets" (fst (set serialize env key value expire s))
    = stat "memory_sets" s + 1.
Proof.
  split; [done|]. split.
  - destruct (set_memory env key value expire s) as [-> _].
    apply lookup_insert_eq.
  - unfold set. simpl.
    destruct (_redis_available s && _redis_client s);
      [destruct (res_bind _ _)|];
      destruct (disk_set _ _ _ _ _); by counters.
Qed.

(** A failing outer tier leaves its counter alone: the write was
    attempted and given up, not reported. *)
Lemma set_swallows_faults env key value expire s :
  redis_down env = true → disk_down env = true →
  let s' := fst (set serialize env key value expire s) in
  stat "redis_sets" s' = stat "redis_sets" s ∧
  stat "disk_sets" s' = stat "disk_sets" s ∧
  _redis_db s' = _redis_db s ∧ _disk_cache s' = _disk_cache s.
Proof.
  intros Hr Hd. unfold set, disk_set, redis_setex. rewrite Hr, Hd.
  cbn [fst]. destruct (_redis_available _ && _redis_client _);
    [destruct (serialize value)|]; cbn [res_bind];
    repeat split; by counters.
Qed.

(** *** [get] *)

Lemma get_memory_hit env key dflt s value :
  _memory_cache s !! key = Some value →
  _is_cache_valid env key (_memory_cache_ttl s) = true →
  get deserialize env key dflt s = (bump "memory_hits" s, Ok value).
Proof. intros Hm Hv. unfold get. by rewrite Hm, Hv. Qed.

(** After [set], memory answers for the key until the entry expires. *)
Lemma get_after_set env0 env1 key value expire dflt s :
  (now env1 < now env0 + secs (default (cache_ttl s) expire))%Qc →
  get deserialize env1 key dflt (fst (set serialize env0 key value expire s)) =
  (bump "memory_hits" (fst (set serialize env0 key value expire s)), Ok value).
Proof.
  intros Hlive.
  destruct (set_memory env0 key value expire s) as [Hm Ht].
  apply get_memory_hit.
  - rewrite Hm. apply lookup_insert_eq.
  - unfold _is_cache_valid. rewrite Ht, lookup_insert_eq.
    by apply bool_decide_eq_true_2.
Qed.

(** C5. A [get] that follows [set key value ttl] with [ttl > 0], before
    [ttl] seconds have passed on the clock, returns [value]. *)
Theorem set_then_get env0 env1 key value ttl dflt s :
  0 < ttl →
  (now env0 ≤ now env1)%Qc →
  (now env1 < now env0 + secs ttl)%Qc →
  snd (get deserialize env1 key dflt
         (fst (set serialize env0 key value (Some ttl) s))) = Ok value.
Proof. intros _ _ Hlive. by rewrite get_after_set. Qed.

Lemma secs_positive z : 0 < z → (0 < secs z)%Qc.
Proof.
  intros H. change (0 < Qred (inject_Z z))%Q. rewrite Qred_correct.
  unfold Qlt. simpl. lia.
Qed.

(** On the very clock reading of the [set], any positive [ttl] is enough,
    and the read is counted as a memory hit. *)
Lemma set_then_get_at_once env key value ttl dflt s :
  0 < ttl →
  let written := fst (set serialize env key value (Some ttl) s) in
  snd (get deserialize env key dflt written) = Ok value ∧
  stat "memory_hits" (fst (get deserialize env key dflt written))
    = stat "memory_hits" written + 1.
Proof.
  intros Hpos written. subst written. rewrite get_after_set.
  - split; [done|]. apply stat_bump_eq.
  - simpl. rewrite <- (Qcplus_0_r (now env)) at 1.
    apply Qcplus_lt_mono_l. by apply secs_positive.
Qed.

(** A key with no live memory entry is looked up in Redis, on a state
    that differs from [s] in the memory maps and counters only. *)
Lemma get_memory_miss env key dflt s :
  memory_live env key s = false →
  ∃ m t, get deserialize env key dflt s =
         get_redis deserialize env key dflt
           (bump "memory_misses" (with_memory m t s))
         ∧ (m = _memory_cache s ∨ m = delete key (_memory_cache s)).
Proof.
  unfold memory_live, get. intros Hl.
  destruct (_memory_cache s !! key) as [v|] eqn:Hm.
  - rewrite bool_decide_eq_true_2 in Hl by eauto. simpl in Hl. rewrite Hl.
    eexists _, _. split; [done|by right].
  - exists (_memory_cache s), (_memory_cache_ttl s). split; [|by left].
    by destruct s.
Qed.

Lemma get_redis_miss env key dflt s :
  redis_serves env key s = None →
  get_redis deserialize env key dflt s =
  get_disk env key dflt (bump "redis_misses" s).
Proof.
  unfold redis_serves, get_redis.
  destruct (_redis_available s && _redis_client s); [|done].
  by destruct (redis_get env key s) as [[?|]|].
Qed.

(** C6 (as the code has it). When memory has no live entry for [key],
    Redis does not serve it and the disk store holds [value], [get]
    returns [value], copies it into memory and counts a disk hit; a
    second [get] within the default time to live returns [value] again
    and counts a memory hit, not a disk hit. *)
Theorem disk_hit_backfills_memory env env' key dflt s value :
  memory_live env key s = false →
  redis_serves env key s = None →
  disk_lookup env key s = Ok (Some value) →
  (now env' < now env + secs (cache_ttl s))%Qc →
  let first := get deserialize env key dflt s in
  let second := get deserialize env' key dflt (fst first) in
  snd first = Ok value ∧
  _memory_cache (fst first) !! key = Some value ∧
  stat "disk_hits" (fst first) = stat "disk_hits" s + 1 ∧
  snd second = Ok value ∧
  stat "memory_hits" (fst second) = stat "memory_hits" (fst first) + 1 ∧
  stat "disk_hits" (fst second) = stat "disk_hits" (fst first).
Proof.
  intros Hl Hr Hd Hnow first second.
  destruct (get_memory_miss env key dflt s Hl) as (m & t & Hget & _).
  assert (Hfirst : first =
    (bump "disk_hits"
       (_set_memory_cache env key value (cache_ttl s)
          (bump "redis_misses" (bump "memory_misses" (with_memory m t s)))),
     Ok value)).
  { subst first. rewrite Hget, get_redis_miss by done.
    unfold get_disk.
    change (disk_lookup env key
              (bump "redis_misses" (bump "memory_misses" (with_memory m t s))))
      with (disk_lookup env key s).
    by rewrite Hd. }
  assert (Hsecond : second = (bump "memory_hits" (fst first), Ok value)).
  { subst second. rewrite Hfirst. apply get_memory_hit.
    - simpl. apply lookup_insert_eq.
    - unfold _is_cache_valid. simpl. rewrite lookup_insert_eq.
      by apply bool_decide_eq_true_2. }
  rewrite Hsecond, Hfirst. cbn [fst snd].
  repeat split; try (by counters). apply lookup_insert_eq.
Qed.

(** C7 (as the code has it). A read that memory cannot serve and a
    slower tier can returns the value of the first slower tier that has
    it, and leaves it in memory with an expiry of the default time to
    live from now; it writes neither Redis nor the disk store. *)
Theorem slow_hit_backfills_memory env key dflt s value :
  memory_live env key s = false →
  slow_value deserialize env key s = Some value →
  let s' := fst (get deserialize env key dflt s) in
  snd (get deserialize env key dflt s) = Ok value ∧
  _memory_cache s' !! key = Some value ∧
  _memory_cache_ttl s' !! key = Some (now env + secs (cache_ttl s))%Qc ∧
  _redis_db s' = _redis_db s ∧
  _disk_cache s' = _disk_cache s.
Proof.
  intros Hl Hv.
  destruct (get_memory_miss env key dflt s Hl) as (m & t & -> & _).
  unfold slow_value in Hv.
  destruct (redis_serves env key s) as [raw|] eqn:Hr.
  - injection Hv as <-. unfold redis_serves in Hr. unfold get_redis.
    change (_redis_available (bump "memory_misses" (with_memory m t s)))
      with (_redis_available s).
    change (_redis_client (bump "memory_misses" (with_memory m t s)))
      with (_redis_client s).
    change (redis_get env key (bump "memory_misses" (with_memory m t s)))
      with (redis_get env key s).
    destruct (_redis_available s && _redis_client s); [|done].
    destruct (redis_get env key s) as [[raw'|]|]; try done.
    injection Hr as ->. simpl.
    repeat split; apply lookup_insert_eq.
  - rewrite get_redis_miss by done. unfold get_disk.
    change (disk_lookup env key
              (bump "redis_misses" (bump "memory_misses" (with_memory m t s))))
      with (disk_lookup env key s).
    destruct (disk_lookup env key s) as [[v|]|]; try done.
    injection Hv as ->. simpl.
    repeat split; apply lookup_insert_eq.
Qed.

(** [get] has no raising path: every call on an outer store is inside a
    [try]. *)
Lemma get_returns env key dflt s :
  ∃ value, snd (get deserialize env key dflt s) = Ok value.
Proof.
  unfold get, get_redis, get_disk.
  repeat match goal with
         | |- context [match ?x with _ => _ end] => destruct x
         end; simpl; eauto.
Qed.

End Manager.

(** *** [get] as a cascade, and the other operations *)

Section Operations.

Context {V : Type}.
Variable serialize : V → res string.
Variable deserialize : string → V.

Implicit Types (s : CacheManager V) (env : Env) (key : string).

Abbreviation get := (get deserialize).
Abbreviation set := (set serialize).
Abbreviation slow_value := (slow_value deserialize).

Ltac tally :=
  unfold _set_memory_cache;
  repeat first
    [ rewrite stat_bump_eq
    | rewrite stat_bump_ne by done
    | rewrite stat_with_memory
    | rewrite stat_with_redis_db
    | rewrite stat_with_disk ].

Lemma get_redis_result env key dflt s :
  snd (get_redis deserialize env key dflt s) =
  Ok (default dflt (slow_value env key s)).
Proof.
  unfold get_redis, Cache.slow_value, redis_serves, get_disk, disk_lookup.
  simpl.
  destruct (_redis_available s && _redis_client s);
    [destruct (redis_get env key s) as [[raw|]|]; [done|..]|];
    destruct (disk_down env); try done;
    destruct (_disk_cache s !! key) as [[v t]|]; try done;
    destruct (bool_decide _); done.
Qed.

(** The answer of [get], tier by tier. *)
Lemma get_result env key dflt s :
  snd (get env key dflt s) =
  Ok (match live_value env key s with
      | Some value => value
      | None => default dflt (slow_value env key s)
      end).
Proof.
  unfold Cache.get, live_value.
  destruct (_memory_cache s !! key) as [v|];
    [destruct (_is_cache_valid env key (_memory_cache_ttl s)); [done|]|];
    by rewrite get_redis_result.
Qed.

(** X8. [get] answers with the value of the first tier, in the order
    memory, Redis, disk, that has a live entry for the key, and with the
    default when none has; a failing store counts as having none. *)
Theorem get_cascade env key dflt s :
  (∀ value, live_value env key s = Some value →
            snd (get env key dflt s) = Ok value) ∧
  (∀ value, live_value env key s = None →
            slow_value env key s = Some value →
            snd (get env key dflt s) = Ok value) ∧
  (live_value env key s = None → slow_value env key s = None →
   snd (get env key dflt s) = Ok dflt).
Proof.
  rewrite get_result. split; [|split].
  - by intros value ->.
  - by intros value -> ->.
  - by intros -> ->.
Qed.

Lemma aligned_insert s key value t :
  aligned s →
  aligned (with_memory (<[key := value]> (_memory_cache s))
                       (<[key := t]> (_memory_cache_ttl s)) s).
Proof.
  intros H k. specialize (H k). simpl.
  destruct (decide (key = k)) as [->|].
  - rewrite !lookup_insert_eq. split; eauto.
  - by rewrite !lookup_insert_ne.
Qed.

Lemma aligned_purge s key : aligned s → aligned (purge s key).
Proof.
  intros H k. specialize (H k). simpl.
  destruct (decide (key = k)) as [->|].
  - rewrite !lookup_delete_eq. split; intros []; done.
  - by rewrite !lookup_delete_ne.
Qed.

Lemma aligned_same s s' :
  _memory_cache s' = _memory_cache s →
  _memory_cache_ttl s' = _memory_cache_ttl s →
  aligned s → aligned s'.
Proof. intros Hm Ht H k. rewrite Hm, Ht. apply H. Qed.

Lemma aligned_get env key dflt s : aligned s → aligned (get env key dflt s).1.
Proof.
  intros H.
  assert (Hslow : ∀ s0, aligned s0 →
            aligned (get_redis deserialize env key dflt s0).1).
  { intros s0 H0. unfold get_redis, get_disk.
    destruct (_redis_available s0 && _redis_client s0);
      [destruct (redis_get env key s0) as [[raw|]|]|];
      try (eapply aligned_same; [| |by apply (aligned_insert s0 key (deserialize raw)
             (now env + secs (cache_ttl s0))%Qc)]; done);
      (destruct (disk_lookup env key _) as [[v|]|];
       [eapply aligned_same;
          [| |by apply (aligned_insert s0 key v (now env + secs (cache_ttl s0))%Qc)];
          done
       |by eapply aligned_same; [| |exact H0]..]). }
  unfold Cache.get.
  destruct (_memory_cache s !! key) as [v|].
  - destruct (_is_cache_valid env key (_memory_cache_ttl s)).
    + by eapply aligned_same; [| |exact H].
    + apply Hslow. eapply aligned_same; [| |exact (aligned_purge s key H)]; done.
  - apply Hslow. by eapply aligned_same; [| |exact H].
Qed.

Lemma aligned_cleanup env s : aligned s → aligned (cleanup_expired env s).1.
Proof.
  unfold cleanup_expired. simpl. generalize (expired_keys env s) as keys.
  intros keys. revert s. induction keys as [|k keys IH]; intros s H; [done|].
  simpl. apply IH. by apply aligned_purge.
Qed.

(** X9. The two memory maps keep the same keys: if every cached key has an
    expiry and every expiry a cached key, that is still so after [get],
    [set], [delete], [clear] and [cleanup_expired]. *)
Theorem memory_maps_stay_aligned env key value expire dflt s :
  aligned s →
  aligned (get env key dflt s).1 ∧
  aligned (set env key value expire s).1 ∧
  aligned (delete_ env key s).1 ∧
  aligned (clear env s).1 ∧
  aligned (cleanup_expired env s).1.
Proof.
  intros H. split; [by apply aligned_get|]. split; [|split; [|split]].
  - destruct (set_memory serialize env key value expire s) as [Hm Ht].
    apply (aligned_same
             (with_memory (<[key := value]> (_memory_cache s))
                (<[key := (now env + secs (default (cache_ttl s) expire))%Qc]>
                   (_memory_cache_ttl s)) s));
      [exact Hm|exact Ht|by apply aligned_insert].
  - unfold delete_. simpl.
    destruct (_redis_available s && _redis_client s);
      [destruct (redis_delete env key _)|];
      destruct (disk_remove env key _);
      (eapply aligned_same; [| |exact (aligned_purge s key H)]; done).
  - unfold clear. simpl.
    assert (aligned (with_memory ∅ ∅ s)) as H0 by (intros k; simpl; by rewrite !lookup_empty).
    destruct (_redis_available s && _redis_client s);
      [destruct (redis_flushdb env _)|];
      destruct (disk_clear env _);
      (eapply aligned_same; [| |exact H0]; done).
  - by apply aligned_cleanup.
Qed.

(** [get] reads nothing but the entries of its key, the two Redis flags
    and the stores' answers for that key. *)
Lemma get_depends_on_key env key dflt s1 s2 :
  _memory_cache s1 !! key = _memory_cache s2 !! key →
  _memory_cache_ttl s1 !! key = _memory_cache_ttl s2 !! key →
  _redis_available s1 = _redis_available s2 →
  _redis_client s1 = _redis_client s2 →
  _redis_db s1 !! key = _redis_db s2 !! key →
  _disk_cache s1 !! key = _disk_cache s2 !! key →
  snd (get env key dflt s1) = snd (get env key dflt s2).
Proof.
  intros Hm Ht Ha Hc Hr Hd. rewrite !get_result.
  unfold live_value, _is_cache_valid, Cache.slow_value, redis_serves,
    redis_get, disk_lookup.
  by rewrite Hm, Ht, Ha, Hc, Hr, Hd.
Qed.

Lemma set_stores env key value expire s key' :
  key ≠ key' →
  let s' := (set env key value expire s).1 in
  _redis_available s' = _redis_available s ∧
  _redis_client s' = _redis_client s ∧
  _redis_db s' !! key' = _redis_db s !! key' ∧
  _disk_cache s' !! key' = _disk_cache s !! key'.
Proof.
  intros Hne. unfold Cache.set, redis_setex, disk_set. simpl.
  destruct (_redis_available s && _redis_client s);
    [destruct (serialize value); simpl;
       [destruct (redis_down env); [|destruct (_ <=? 0)]|]|];
    destruct (disk_down env); simpl;
    rewrite ?lookup_insert_ne by done; done.
Qed.

Lemma delete_stores env key s key' :
  key ≠ key' →
  let s' := (delete_ env key s).1 in
  _memory_cache s' !! key' = _memory_cache s !! key' ∧
  _memory_cache_ttl s' !! key' = _memory_cache_ttl s !! key' ∧
  _redis_available s' = _redis_available s ∧
  _redis_client s' = _redis_client s ∧
  _redis_db s' !! key' = _redis_db s !! key' ∧
  _disk_cache s' !! key' = _disk_cache s !! key'.
Proof.
  intros Hne. unfold delete_, redis_delete, disk_remove, disk_lookup. simpl.
  destruct (_redis_available s && _redis_client s);
    [destruct (redis_down env)|];
    destruct (disk_down env); simpl;
    try (destruct (_disk_cache s !! key) as [[v t]|]; simpl;
         [destruct (bool_decide _)|]); simpl;
    rewrite ?lookup_delete_ne by done; done.
Qed.

(** X10. [set] and [delete] on one key leave what [get] answers for any
    other key as it was. *)
Theorem other_keys_untouched env env' key key' value expire dflt s :
  key ≠ key' →
  snd (get env' key' dflt (set env key value expire s).1)
    = snd (get env' key' dflt s) ∧
  snd (get env' key' dflt (delete_ env key s).1)
    = snd (get env' key' dflt s).
Proof.
  intros Hne. split.
  - destruct (set_memory serialize env key value expire s) as [Hm Ht].
    destruct (set_stores env key value expire s key' Hne) as (Ha & Hc & Hr & Hd).
    apply get_depends_on_key; try done.
    + rewrite Hm. by apply lookup_insert_ne.
    + rewrite Ht. by apply lookup_insert_ne.
  - destruct (delete_stores env key s key' Hne) as (Hm & Ht & Ha & Hc & Hr & Hd).
    by apply get_depends_on_key.
Qed.

(** X11. With Redis connected and both outer stores answering, [set] with
    a positive time to live leaves the value in all three tiers, serialized
    in Redis, each entry expiring that long after the write. *)
Theorem set_writes_through env key value ttl serialized s :
  _redis_available s = true → _redis_client s = true →
  redis_down env = false → disk_down env = false →
  serialize value = Ok serialized →
  0 < ttl →
  let s' := (set env key value (Some ttl) s).1 in
  _memory_cache s' !! key = Some value ∧
  _memory_cache_ttl s' !! key = Some (now env + secs ttl)%Qc ∧
  _redis_db s' !! key = Some (serialized, (now env + secs ttl)%Qc) ∧
  _disk_cache s' !! key = Some (value, (now env + secs ttl)%Qc) ∧
  stat "redis_sets" s' = stat "redis_sets" s + 1 ∧
  stat "disk_sets" s' = stat "disk_sets" s + 1.
Proof.
  intros Ha Hc Hr Hd Hser Hpos. unfold Cache.set, redis_setex, disk_set.
  simpl. rewrite Ha, Hc, Hr, Hd, Hser. simpl.
  destruct (Z.leb_spec ttl 0); [lia|]. unfold stat. simpl.
  repeat split;
    repeat first [rewrite lookup_insert_eq | rewrite lookup_insert_ne by done].
  all: try done.
  all: simpl; fold (stat "redis_sets" s); fold (stat "disk_sets" s); by tally.
Qed.

(** X12. After such a write, a read that finds no live memory entry (the
    memory maps lost, as after a restart) and a Redis that answers returns
    the deserialized Redis copy, not the value kept on disk. *)
Theorem redis_copy_is_read_back env env' key value ttl serialized dflt s :
  _redis_available s = true → _redis_client s = true →
  redis_down env = false → disk_down env = false →
  serialize value = Ok serialized →
  0 < ttl →
  redis_down env' = false →
  (now env' < now env + secs ttl)%Qc →
  snd (get env' key dflt
         (with_memory ∅ ∅ (set env key value (Some ttl) s).1))
    = Ok (deserialize serialized).
Proof.
  intros Ha Hc Hr Hd Hser Hpos Hr' Hlive.
  assert (Hdb : _redis_db (set env key value (Some ttl) s).1 !! key
                = Some (serialized, (now env + secs ttl)%Qc)).
  { unfold Cache.set, redis_setex, disk_set.
    simpl. rewrite Ha, Hc, Hr, Hd, Hser. simpl.
    destruct (Z.leb_spec ttl 0); [lia|]. simpl. apply lookup_insert_eq. }
  assert (Hflags : _redis_available (set env key value (Some ttl) s).1 = true
                   ∧ _redis_client (set env key value (Some ttl) s).1 = true).
  { unfold Cache.set. simpl.
    destruct (_redis_available s && _redis_client s);
      [destruct (res_bind _ _)|]; destruct (disk_set _ _ _ _ _); done. }
  destruct Hflags as [Ha' Hc']. cbv zeta in Hdb.
  generalize dependent (set env key value (Some ttl) s).1. intros written Hdb Ha' Hc'.
  rewrite get_result. unfold live_value. simpl. rewrite lookup_empty.
  unfold Cache.slow_value, redis_serves, redis_get. simpl.
  rewrite Ha', Hc', Hr', Hdb. simpl.
  by rewrite bool_decide_eq_true_2 by by apply Qclt_le_weak.
Qed.

(** What [get] answers when no tier has a live entry. *)
Lemma get_absent env key dflt s :
  live_value env key s = None →
  slow_value env key s = None →
  snd (get env key dflt s) = Ok dflt.
Proof. intros Hl Hs. by rewrite get_result, Hl, Hs. Qed.

Lemma stale_entry {A} env (t : Qc) (x : A) :
  ¬ (now env < t)%Qc →
  (if bool_decide (now env < t)%Qc then Some x else None) = None.
Proof. intros H. by rewrite bool_decide_eq_false_2. Qed.

Lemma past_entry {A} env (t : Qc) (x : A) :
  ¬ (now env ≤ t)%Qc →
  (if bool_decide (now env ≤ t)%Qc then Some x else None) = None.
Proof. intros H. by rewrite bool_decide_eq_false_2. Qed.

(** X13. When the outer stores took the write, a [get] made after the time
    to live has passed answers with the default: every tier's copy has
    expired with the memory entry. *)
Theorem entry_expires env env' key value ttl dflt s :
  redis_down env = false → disk_down env = false →
  is_ok (serialize value) = true →
  0 < ttl →
  (now env + secs ttl < now env')%Qc →
  snd (get env' key dflt (set env key value (Some ttl) s).1) = Ok dflt.
Proof.
  intros Hr Hd Hser Hpos Hpast.
  assert (Hgone : ¬ (now env' < now env + secs ttl)%Qc)
    by by apply Qcle_not_lt, Qclt_le_weak.
  assert (Hpassed : ¬ (now env' ≤ now env + secs ttl)%Qc)
    by by apply Qclt_not_le.
  destruct (set_memory serialize env key value (Some ttl) s) as [Hm Ht].
  assert (Hstores :
    _disk_cache (set env key value (Some ttl) s).1 !! key
      = Some (value, (now env + secs ttl)%Qc) ∧
    (_redis_available (set env key value (Some ttl) s).1
       && _redis_client (set env key value (Some ttl) s).1 = true →
     ∃ raw, _redis_db (set env key value (Some ttl) s).1 !! key
            = Some (raw, (now env + secs ttl)%Qc))).
  { unfold Cache.set, redis_setex, disk_set. simpl. rewrite Hr, Hd.
    destruct (serialize value) as [raw|]; [|done]. simpl.
    destruct (Z.leb_spec ttl 0); [lia|].
    destruct (_redis_available s && _redis_client s) eqn:Hon; simpl;
      rewrite ?Hon; (split; [apply lookup_insert_eq|]); [|done].
    intros _. exists raw. apply lookup_insert_eq. }
  destruct Hstores as [Hdisk Hredis].
  change (default (cache_ttl s) (Some ttl)) with ttl in Ht.
  generalize dependent (set env key value (Some ttl) s).1.
  intros written Hm Ht Hdisk Hredis.
  apply get_absent.
  - unfold live_value, _is_cache_valid. rewrite Hm, Ht, lookup_insert_eq.
    rewrite lookup_insert_eq. by rewrite bool_decide_eq_false_2.
  - unfold Cache.slow_value, redis_serves, redis_get, disk_lookup.
    rewrite Hdisk, (stale_entry env' _ value Hgone).
    destruct (_redis_available written && _redis_client written); [|by destruct (disk_down env')].
    destruct (Hredis eq_refl) as [raw ->].
    rewrite (past_entry env' _ raw Hpassed).
    by destruct (redis_down env'), (disk_down env').
Qed.

(** X14. When the outer stores answer during [delete] and the clock does
    not go back, the key is gone: [get] answers with the default and
    [exists] with [False]. *)
Theorem delete_then_absent env env' key dflt s :
  redis_down env = false → disk_down env = false →
  (now env ≤ now env')%Qc →
  snd (get env' key dflt (delete_ env key s).1) = Ok dflt ∧
  exists_ env' key (delete_ env key s).1 = false.
Proof.
  intros Hr Hd Hclock.
  assert (Hstate :
    _memory_cache (delete_ env key s).1 !! key = None ∧
    (∃ e, disk_lookup env' key (delete_ env key s).1 = Raise e
          ∨ disk_lookup env' key (delete_ env key s).1 = Ok None) ∧
    (_redis_available (delete_ env key s).1 && _redis_client (delete_ env key s).1 = true →
     _redis_db (delete_ env key s).1 !! key = None)).
  { unfold delete_, redis_delete, disk_remove, disk_lookup. simpl. rewrite Hr, Hd.
    assert (Hdisk : ∀ d : gmap string (V * Qc),
              d !! key = None ∨
              (∃ v t, d !! key = Some (v, t) ∧ ¬ (now env' < t)%Qc) →
              ∃ e,
                (if disk_down env' then Raise (PyError "OperationalError")
                 else Ok match d !! key with
                         | Some (v, t) =>
                             if bool_decide (now env' < t)%Qc then Some v else None
                         | None => None
                         end) = Raise e
                ∨ (if disk_down env' then Raise (PyError "OperationalError")
                   else Ok match d !! key with
                           | Some (v, t) =>
                               if bool_decide (now env' < t)%Qc then Some v else None
                           | None => None
                           end) = Ok (None : option V)).
    { intros d Hcase. exists (PyError "OperationalError").
      destruct (disk_down env'); [by left|right].
      destruct Hcase as [->|(v & t & -> & Hold)]; [done|].
      by rewrite bool_decide_eq_false_2. }
    assert (Hold : ∀ v t, _disk_cache s !! key = Some (v, t) →
              bool_decide (now env < t)%Qc = false → ¬ (now env' < t)%Qc).
    { intros v t _ Hdead Hlater. apply bool_decide_eq_false_1 in Hdead.
      apply Hdead. by eapply Qcle_lt_trans. }
    destruct (_redis_available s && _redis_client s) eqn:Hon; simpl;
      rewrite ?Hon; (split; [apply lookup_delete_eq|]); (split; [|try done]).
    1,3: destruct (_disk_cache s !! key) as [[v t]|] eqn:Hk; simpl;
         [destruct (bool_decide (now env < t)%Qc) eqn:Hlive; simpl;
          apply Hdisk; [left; apply lookup_delete_eq|right; eauto]
         |apply Hdisk; by left].
    intros _. apply lookup_delete_eq. }
  destruct Hstate as (Hm & (e & Hdisk) & Hredis).
  generalize dependent (delete_ env key s).1. intros gone Hm Hdisk Hredis.
  assert (Hon_disk : match disk_lookup env' key gone with
                     | Ok (Some _) => true
                     | Ok None | Raise _ => false
                     end = false)
    by (destruct Hdisk as [-> | ->]; done).
  assert (Hserved : redis_serves env' key gone = None).
  { unfold redis_serves, redis_get.
    destruct (_redis_available gone && _redis_client gone); [|done].
    rewrite (Hredis eq_refl). by destruct (redis_down env'). }
  split.
  - apply get_absent; [unfold live_value; by rewrite Hm|].
    unfold Cache.slow_value. rewrite Hserved.
    by destruct Hdisk as [-> | ->].
  - unfold exists_, memory_live. rewrite Hm.
    rewrite bool_decide_eq_false_2 by (by intros []). simpl.
    rewrite Hon_disk.
    destruct (_redis_available gone && _redis_client gone); [|done].
    unfold redis_exists, redis_get. rewrite (Hredis eq_refl).
    by destruct (redis_down env').
Qed.

(** X15. When the outer stores answer during [clear], no key is left:
    whatever the key and the time, [get] answers with the default and
    [exists] with [False]. Redis is flushed whole, not key by key. *)
Theorem clear_then_absent env env' key dflt s :
  redis_down env = false → disk_down env = false →
  snd (get env' key dflt (clear env s).1) = Ok dflt ∧
  exists_ env' key (clear env s).1 = false ∧
  (_redis_available s && _redis_client s = true → _redis_db (clear env s).1 = ∅).
Proof.
  intros Hr Hd.
  assert (Hstate :
    _memory_cache (clear env s).1 = ∅ ∧ _disk_cache (clear env s).1 = ∅ ∧
    (_redis_available (clear env s).1 && _redis_client (clear env s).1 = true →
     _redis_db (clear env s).1 = ∅) ∧
    _redis_available (clear env s).1 && _redis_client (clear env s).1
      = _redis_available s && _redis_client s).
  { unfold clear, redis_flushdb, disk_clear. simpl. rewrite Hr, Hd.
    destruct (_redis_available s && _redis_client s) eqn:Hon; simpl;
      by rewrite ?Hon. }
  destruct Hstate as (Hm & Hdisk & Hredis & Hflags).
  split; [|split]; [| |by rewrite <- Hflags].
  all: generalize dependent (clear env s).1; intros cleared Hm Hdisk Hredis _.
  - apply get_absent; [unfold live_value; by rewrite Hm, lookup_empty|].
    unfold Cache.slow_value, redis_serves, redis_get, disk_lookup.
    rewrite Hdisk, lookup_empty.
    destruct (_redis_available cleared && _redis_client cleared);
      [rewrite (Hredis eq_refl), lookup_empty|];
      by destruct (redis_down env'), (disk_down env').
  - unfold exists_, memory_live, redis_exists, redis_get, disk_lookup.
    rewrite Hm, Hdisk, !lookup_empty.
    rewrite bool_decide_eq_false_2 by (by intros []). simpl.
    destruct (_redis_available cleared && _redis_client cleared);
      [rewrite (Hredis eq_refl), lookup_empty|];
      by destruct (redis_down env'), (disk_down env').
Qed.

(** X16. When [exists] answers [True], a [get] at that moment is served by
    a tier: it returns a value that memory or a slower tier holds, not the
    default of a miss. *)
Theorem exists_implies_served env key dflt s :
  exists_ env key s = true →
  ∃ value,
    snd (get env key dflt s) = Ok value ∧
    (live_value env key s = Some value ∨
     (live_value env key s = None ∧ slow_value env key s = Some value)).
Proof.
  unfold exists_, memory_live. rewrite get_result. unfold live_value.
  destruct (_memory_cache s !! key) as [v|] eqn:Hm.
  - rewrite bool_decide_eq_true_2 by eauto. simpl.
    destruct (_is_cache_valid env key (_memory_cache_ttl s)); [eauto|].
    intros Hslow. enough (∃ value, slow_value env key s = Some value) as [w Hw]
      by (exists w; rewrite Hw; eauto).
    revert Hslow. unfold Cache.slow_value, redis_serves, redis_exists.
    destruct (_redis_available s && _redis_client s);
      [destruct (redis_get env key s) as [[raw|]|]; simpl; [eauto|done|]|];
      destruct (disk_lookup env key s) as [[w|]|]; try done; eauto.
  - rewrite bool_decide_eq_false_2 by (by intros []). simpl.
    intros Hslow. enough (∃ value, slow_value env key s = Some value) as [w Hw]
      by (exists w; rewrite Hw; eauto).
    revert Hslow. unfold Cache.slow_value, redis_serves, redis_exists.
    destruct (_redis_available s && _redis_client s);
      [destruct (redis_get env key s) as [[raw|]|]; simpl; [eauto|done|]|];
      destruct (disk_lookup env key s) as [[w|]|]; try done; eauto.
Qed.

(** X17. The converse fails by design of the early [return]: with Redis
    connected and answering that it lacks the key, [exists] says [False]
    without looking at the disk store, while [get] returns the value the
    disk store holds. *)
Theorem exists_skips_disk env key dflt s value :
  memory_live env key s = false →
  _redis_available s = true → _redis_client s = true →
  redis_get env key s = Ok None →
  disk_lookup env key s = Ok (Some value) →
  exists_ env key s = false ∧ snd (get env key dflt s) = Ok value.
Proof.
  intros Hl Ha Hc Hr Hd. split.
  - unfold exists_, redis_exists. by rewrite Hl, Ha, Hc, Hr.
  - rewrite get_result.
    assert (live_value env key s = None) as ->.
    { unfold live_value. unfold memory_live in Hl.
      destruct (_memory_cache s !! key); [|done].
      rewrite bool_decide_eq_true_2 in Hl by eauto. simpl in Hl. by rewrite Hl. }
    unfold Cache.slow_value, redis_serves. by rewrite Ha, Hc, Hr, Hd.
Qed.

Lemma fold_purge keys : ∀ s key,
  let s' := fold_left purge keys s in
  _memory_cache s' !! key
    = (if decide (key ∈ keys) then None else _memory_cache s !! key) ∧
  _memory_cache_ttl s' !! key
    = (if decide (key ∈ keys) then None else _memory_cache_ttl s !! key) ∧
  _redis_available s' = _redis_available s ∧
  _redis_client s' = _redis_client s ∧
  _redis_db s' = _redis_db s ∧
  _disk_cache s' = _disk_cache s.
Proof.
  induction keys as [|k keys IH]; intros s key; cbn [fold_left].
  - destruct (decide (key ∈ [])) as [Hin|]; [|done].
    by apply elem_of_nil in Hin.
  - destruct (IH (purge s k) key) as (Hm & Ht & Ha & Hc & Hr & Hd).
    cbv zeta. rewrite Hm, Ht, Ha, Hc, Hr, Hd. simpl.
    destruct (decide (key ∈ keys)) as [Hin|Hout].
    + rewrite !decide_True by (apply elem_of_cons; by right). done.
    + destruct (decide (key = k)) as [->|Hne].
      * rewrite !decide_True by (apply elem_of_cons; by left).
        by rewrite !lookup_delete_eq.
      * rewrite !decide_False by (rewrite elem_of_cons; by intros [|]).
        by rewrite !lookup_delete_ne.
Qed.

Lemma elem_of_expired_keys env s key :
  key ∈ expired_keys env s ↔
  ∃ t, _memory_cache_ttl s !! key = Some t ∧ (t ≤ now env)%Qc.
Proof.
  unfold expired_keys. rewrite list_elem_of_fmap. split.
  - intros [[k t] [-> Hin]]. apply elem_of_map_to_list in Hin.
    apply map_lookup_filter_Some in Hin. eauto.
  - intros (t & Ht & Hold). exists (key, t). split; [done|].
    apply elem_of_map_to_list, map_lookup_filter_Some. done.
Qed.

(** X18. [cleanup_expired] leaves no expiry that is not in the future, and
    it changes no answer: from then on, as long as the clock does not go
    back, [get] returns for every key what it would have returned without
    the cleanup. *)
Theorem cleanup_expired_is_transparent env s :
  let s' := (cleanup_expired env s).1 in
  (∀ key t, _memory_cache_ttl s' !! key = Some t → (now env < t)%Qc) ∧
  (∀ env' key dflt,
     (now env ≤ now env')%Qc →
     snd (get env' key dflt s') = snd (get env' key dflt s)).
Proof.
  unfold cleanup_expired. simpl. split.
  - intros key t.
    destruct (fold_purge (expired_keys env s) s key) as (_ & -> & _).
    destruct (decide (key ∈ expired_keys env s)) as [|Hout]; [done|].
    intros Ht. apply Qcnot_le_lt. intros Hold. apply Hout.
    apply elem_of_expired_keys. eauto.
  - intros env' key dflt Hclock.
    destruct (fold_purge (expired_keys env s) s key) as (Hm & Ht & Ha & Hc & Hr & Hd).
    rewrite !get_result.
    unfold live_value, _is_cache_valid, Cache.slow_value, redis_serves,
      redis_get, disk_lookup.
    rewrite Hm, Ht, Ha, Hc, Hr, Hd.
    destruct (decide (key ∈ expired_keys env s)) as [Hin|]; [|done].
    apply elem_of_expired_keys in Hin as (t & -> & Hold).
    rewrite bool_decide_eq_false_2.
    + by destruct (_memory_cache s !! key).
    + apply Qcle_not_lt. by eapply Qcle_trans.
Qed.

(** X19. One [get] counts one hit or three misses: either the hits grow by
    one and the requests by the number of tiers tried, or no tier had the
    key, the default is returned and the requests grow by three. *)
Theorem get_accounting env key dflt s :
  let s' := (get env key dflt s).1 in
  (total_hits s' = total_hits s + 1 ∧
   total_requests s < total_requests s' ≤ total_requests s + 3) ∨
  (total_hits s' = total_hits s ∧
   total_requests s' = total_requests s + 3 ∧
   snd (get env key dflt s) = Ok dflt).
Proof.
  unfold Cache.get, get_redis, get_disk, total_hits, total_requests.
  destruct (_memory_cache s !! key) as [v|];
    [destruct (_is_cache_valid env key (_memory_cache_ttl s))|];
    try (destruct (_redis_available _ && _redis_client _);
         [destruct (redis_get env key _) as [[raw|]|]|]);
    try (destruct (disk_lookup env key _) as [[w|]|]);
    cbn [fst snd]; tally;
    first [left; lia | right; split; [lia|split; [lia|done]]].
Qed.

End Operations.

(** *** Concrete states

    Values are strings, stored in Redis as they are. *)

Definition raw (v : string) : res string := Ok v.

Definition at_time (t : Z) : Env :=
  {| now := secs t; redis_down := false; disk_down := false |}.

(** A manager with Redis connected, nothing in memory, and the key [k] in
    both outer stores: as after a restart. Redis still has the value of an
    earlier write, the disk store that of a later write made while Redis
    was unreachable. *)
Definition stale_redis : CacheManager string :=
  with_disk (<["k" := ("new", secs 1000)]> ∅)
    (with_redis_db (<["k" := ("old", secs 1000)]> ∅) (new_cache 3600 true)).

(** C6, at [stale_redis]: the disk store holds ["new"] and memory nothing,
    yet [get] returns and backfills what Redis holds. *)
Lemma disk_value_shadowed_by_redis :
  let s := stale_redis in
  let r := get id (at_time 10) "k" "" s in
  disk_lookup (at_time 10) "k" s = Ok (Some "new") ∧
  _memory_cache s !! "k" = None ∧
  snd r = Ok "old" ∧
  _memory_cache (fst r) !! "k" = Some "old" ∧
  stat "disk_hits" (fst r) = 0.
Proof. vm_compute. done. Qed.

(** A manager after a restart: the key [k] is on disk for a week (the
    time to live [translate_subtitle] writes with), Redis is connected
    and does not have it, the default time to live is an hour. *)
Definition week_on_disk : CacheManager string :=
  with_disk (<["k" := ("v", secs 604800)]> ∅) (new_cache 3600 true).

(** C7, at [week_on_disk]: the read succeeds from disk; afterwards Redis,
    a faster tier, still lacks the key, and the memory entry expires
    before the disk entry does. *)
Lemma backfill_expires_earlier :
  let s := week_on_disk in
  let r := get id (at_time 10) "k" "" s in
  disk_lookup (at_time 10) "k" s = Ok (Some "v") ∧
  snd r = Ok "v" ∧
  _redis_db (fst r) !! "k" = None ∧
  match _memory_cache_ttl (fst r) !! "k", _disk_cache (fst r) !! "k" with
  | Some in_memory, Some (_, on_disk) => (in_memory < on_disk)%Qc
  | _, _ => False
  end.
Proof. vm_compute. done. Qed.

(** *** Further concrete states *)

Lemma set_then_get_witness :
  0 < 60 ∧
  (now (at_time 0) ≤ now (at_time 1))%Qc ∧
  (now (at_time 1) < now (at_time 0) + secs 60)%Qc ∧
  snd (get id (at_time 1) "k" ""
         (fst (set raw (at_time 0) "k" "v" (Some 60) (new_cache 3600 false))))
    = Ok "v".
Proof.
  split; [lia|]. split; [by vm_compute|]. split; [by vm_compute|].
  apply set_then_get; [lia|by vm_compute|by vm_compute].
Defined.

Lemma disk_hit_backfills_memory_witness :
  memory_live (at_time 10) "k" week_on_disk = false ∧
  redis_serves (at_time 10) "k" week_on_disk = None ∧
  disk_lookup (at_time 10) "k" week_on_disk = Ok (Some "v") ∧
  (now (at_time 11) < now (at_time 10) + secs (cache_ttl week_on_disk))%Qc ∧
  let first := get id (at_time 10) "k" "" week_on_disk in
  let second := get id (at_time 11) "k" "" (fst first) in
  snd first = Ok "v" ∧
  _memory_cache (fst first) !! "k" = Some "v" ∧
  stat "disk_hits" (fst first) = stat "disk_hits" week_on_disk + 1 ∧
  snd second = Ok "v" ∧
  stat "memory_hits" (fst second) = stat "memory_hits" (fst first) + 1 ∧
  stat "disk_hits" (fst second) = stat "disk_hits" (fst first).
Proof.
  split; [by vm_compute|]. split; [by vm_compute|].
  split; [by vm_compute|]. split; [by vm_compute|].
  apply disk_hit_backfills_memory; by vm_compute.
Defined.

Lemma slow_hit_backfills_memory_witness :
  memory_live (at_time 10) "k" stale_redis = false ∧
  slow_value id (at_time 10) "k" stale_redis = Some "old" ∧
  let s' := fst (get id (at_time 10) "k" "" stale_redis) in
  snd (get id (at_time 10) "k" "" stale_redis) = Ok "old" ∧
  _memory_cache s' !! "k" = Some "old" ∧
  _memory_cache_ttl s' !! "k"
    = Some (now (at_time 10) + secs (cache_ttl stale_redis))%Qc ∧
  _redis_db s' = _redis_db stale_redis ∧
  _disk_cache s' = _disk_cache stale_redis.
Proof.
  split; [by vm_compute|]. split; [by vm_compute|].
  apply slow_hit_backfills_memory; by vm_compute.
Defined.

(** [set] with both outer stores failing: the call returns, memory has the
    value, and a read finds it there. *)
Example set_with_both_stores_down :
  let env := {| now := secs 0; redis_down := true; disk_down := true |} in
  let s := fst (set raw env "k" "v" None (new_cache 3600 true)) in
  snd (set raw env "k" "v" None (new_cache 3600 true)) = Ok tt ∧
  snd (get id (at_time 1) "k" "" s) = Ok "v" ∧
  stat "redis_sets" s = 0 ∧ stat "disk_sets" s = 0.
Proof. by vm_compute. Qed.

(** A manager just created, with Redis connected. *)
Definition connected : CacheManager string := new_cache 3600 true.

Lemma memory_maps_stay_aligned_witness :
  aligned connected ∧
  aligned (get id (at_time 10) "k" "" connected).1 ∧
  aligned (set raw (at_time 10) "k" "v" None connected).1 ∧
  aligned (delete_ (at_time 10) "k" connected).1 ∧
  aligned (clear (at_time 10) connected).1 ∧
  aligned (cleanup_expired (at_time 10) connected).1.
Proof.
  assert (Hnew : aligned connected)
    by (intros key; simpl; rewrite !lookup_empty; split; intros []; done).
  split; [exact Hnew|]. by apply memory_maps_stay_aligned.
Defined.

Lemma other_keys_untouched_witness :
  "k" ≠ "j" ∧
  snd (get id (at_time 11) "j" "" (set raw (at_time 10) "k" "v" None week_on_disk).1)
    = snd (get id (at_time 11) "j" "" week_on_disk) ∧
  snd (get id (at_time 11) "j" "" (delete_ (at_time 10) "k" week_on_disk).1)
    = snd (get id (at_time 11) "j" "" week_on_disk).
Proof. split; [done|]. by apply other_keys_untouched. Defined.

Lemma set_writes_through_witness :
  _redis_available connected = true ∧ _redis_client connected = true ∧
  redis_down (at_time 0) = false ∧ disk_down (at_time 0) = false ∧
  raw "v" = Ok "v" ∧
  0 < 60 ∧
  let s' := (set raw (at_time 0) "k" "v" (Some 60) connected).1 in
  _memory_cache s' !! "k" = Some "v" ∧
  _memory_cache_ttl s' !! "k" = Some (now (at_time 0) + secs 60)%Qc ∧
  _redis_db s' !! "k" = Some ("v", (now (at_time 0) + secs 60)%Qc) ∧
  _disk_cache s' !! "k" = Some ("v", (now (at_time 0) + secs 60)%Qc) ∧
  stat "redis_sets" s' = stat "redis_sets" connected + 1 ∧
  stat "disk_sets" s' = stat "disk_sets" connected + 1.
Proof.
  do 5 (split; [reflexivity|]). split; [lia|].
  apply set_writes_through; reflexivity || lia.
Defined.

Lemma redis_copy_is_read_back_witness :
  _redis_available connected = true ∧ _redis_client connected = true ∧
  redis_down (at_time 0) = false ∧ disk_down (at_time 0) = false ∧
  raw "v" = Ok "v" ∧
  0 < 60 ∧
  redis_down (at_time 1) = false ∧
  (now (at_time 1) < now (at_time 0) + secs 60)%Qc ∧
  snd (get id (at_time 1) "k" ""
         (with_memory ∅ ∅ (set raw (at_time 0) "k" "v" (Some 60) connected).1))
    = Ok (id "v").
Proof.
  do 5 (split; [reflexivity|]). split; [lia|]. split; [reflexivity|].
  split; [by vm_compute|].
  apply redis_copy_is_read_back; first [reflexivity | lia | by vm_compute].
Defined.

Lemma entry_expires_witness :
  redis_down (at_time 0) = false ∧ disk_down (at_time 0) = false ∧
  is_ok (raw "v") = true ∧
  0 < 60 ∧
  (now (at_time 0) + secs 60 < now (at_time 61))%Qc ∧
  snd (get id (at_time 61) "k" ""
         (set raw (at_time 0) "k" "v" (Some 60) connected).1) = Ok "".
Proof.
  do 3 (split; [reflexivity|]). split; [lia|]. split; [by vm_compute|].
  apply entry_expires; first [reflexivity | lia | by vm_compute].
Defined.

(** At the instant of expiry itself the memory entry is no longer valid
    and the disk store no longer selects its copy, but Redis still serves
    the key. *)
Example served_by_redis_at_expiry :
  let s := (set raw (at_time 0) "k" "v" (Some 60) connected).1 in
  memory_live (at_time 60) "k" s = false ∧
  disk_lookup (at_time 60) "k" s = Ok None ∧
  snd (get id (at_time 60) "k" "" s) = Ok "v" ∧
  exists_ (at_time 60) "k" s = true.
Proof. by vm_compute. Qed.

Lemma delete_then_absent_witness :
  redis_down (at_time 10) = false ∧ disk_down (at_time 10) = false ∧
  (now (at_time 10) ≤ now (at_time 11))%Qc ∧
  snd (get id (at_time 11) "k" "" (delete_ (at_time 10) "k" stale_redis).1) = Ok "" ∧
  exists_ (at_time 11) "k" (delete_ (at_time 10) "k" stale_redis).1 = false.
Proof.
  do 2 (split; [reflexivity|]). split; [by vm_compute|].
  apply delete_then_absent; first [reflexivity | by vm_compute].
Defined.

Lemma clear_then_absent_witness :
  redis_down (at_time 10) = false ∧ disk_down (at_time 10) = false ∧
  snd (get id (at_time 11) "k" "" (clear (at_time 10) stale_redis).1) = Ok "" ∧
  exists_ (at_time 11) "k" (clear (at_time 10) stale_redis).1 = false ∧
  (_redis_available stale_redis && _redis_client stale_redis = true →
   _redis_db (clear (at_time 10) stale_redis).1 = ∅).
Proof.
  do 2 (split; [reflexivity|]). apply clear_then_absent; reflexivity.
Defined.

Lemma exists_implies_served_witness :
  exists_ (at_time 10) "k" stale_redis = true ∧
  ∃ value,
    snd (get id (at_time 10) "k" "" stale_redis) = Ok value ∧
    (live_value (at_time 10) "k" stale_redis = Some value ∨
     (live_value (at_time 10) "k" stale_redis = None ∧
      slow_value id (at_time 10) "k" stale_redis = Some value)).
Proof.
  split; [by vm_compute|]. apply exists_implies_served. by vm_compute.
Defined.

Lemma exists_skips_disk_witness :
  memory_live (at_time 10) "k" week_on_disk = false ∧
  _redis_available week_on_disk = true ∧ _redis_client week_on_disk = true ∧
  redis_get (at_time 10) "k" week_on_disk = Ok None ∧
  disk_lookup (at_time 10) "k" week_on_disk = Ok (Some "v") ∧
  exists_ (at_time 10) "k" week_on_disk = false ∧
  snd (get id (at_time 10) "k" "" week_on_disk) = Ok "v".
Proof.
  do 5 (split; [by vm_compute|]).
  apply exists_skips_disk; by vm_compute.
Defined.

(** An expired entry is purged by [cleanup_expired] and counted; a live one
    stays. *)
Example cleanup_purges_the_expired :
  let s := (set raw (at_time 0) "old" "a" (Some 5)
              (set raw (at_time 0) "new" "b" (Some 500) connected).1).1 in
  let run := cleanup_expired (at_time 10) s in
  run.2 = 1%nat ∧
  _memory_cache run.1 !! "old" = None ∧
  _memory_cache run.1 !! "new" = Some "b".
Proof. by vm_compute. Qed.

End CacheFacts.

(** ** [src/core/translation_engine.py] *)

Module Engine.
Import Client Cache.

Inductive TranslationStyle : Type :=
| LITERAL | CULTURAL | CREATIVE | BALANCED | PROFESSIONAL | CASUAL.

Definition style_value (style : TranslationStyle) : string :=
  match style with
  | LITERAL => "直译"
  | CULTURAL => "文化适配"
  | CREATIVE => "创意翻译"
  | BALANCED => "平衡"
  | PROFESSIONAL => "专业"
  | CASUAL => "口语化"
  end.

Inductive QualityLevel : Type :=
| BASIC | STANDARD | HIGH | PREMIUM.

Definition quality_value (quality_level : QualityLevel) : string :=
  match quality_level with
  | BASIC => "基础"
  | STANDARD => "标准"
  | HIGH => "高"
  | PREMIUM => "精品"
  end.

(** The enumerations of [src/intelligence/movie_knowledge.py]. *)
Inductive MovieGenre : Type :=
| ACTION | COMEDY | DRAMA | HORROR | ROMANCE | SCI_FI | THRILLER | ANIMATION
| DOCUMENTARY | FANTASY | MYSTERY | ADVENTURE | CRIME | FAMILY | MUSICAL | WAR
| WESTERN.

Definition genre_value (genre : MovieGenre) : string :=
  match genre with
  | ACTION => "动作"
  | COMEDY => "喜剧"
  | DRAMA => "剧情"
  | HORROR => "恐怖"
  | ROMANCE => "爱情"
  | SCI_FI => "科幻"
  | THRILLER => "惊悚"
  | ANIMATION => "动画"
  | DOCUMENTARY => "纪录片"
  | FANTASY => "奇幻"
  | MYSTERY => "悬疑"
  | ADVENTURE => "冒险"
  | CRIME => "犯罪"
  | FAMILY => "家庭"
  | MUSICAL => "音乐"
  | WAR => "战争"
  | WESTERN => "西部"
  end.

Inductive MovieStyle : Type :=
| PHILOSOPHICAL | HUMOROUS | ROMANTIC | DARK | INSPIRATIONAL | NOSTALGIC
| SARCASTIC | EPIC | INTIMATE | EXPERIMENTAL.

Definition movie_style_value (movie_style : MovieStyle) : string :=
  match movie_style with
  | PHILOSOPHICAL => "哲学思辨"
  | HUMOROUS => "轻松幽默"
  | ROMANTIC => "浪漫深情"
  | DARK => "黑暗深沉"
  | INSPIRATIONAL => "励志向上"
  | NOSTALGIC => "怀旧温情"
  | SARCASTIC => "讽刺幽默"
  | EPIC => "史诗宏大"
  | INTIMATE => "私密细腻"
  | EXPERIMENTAL => "实验前卫"
  end.

(** The dataclasses, with the fields that [translate_subtitle] reads on
    its way to the request: those of the cache key and those of the
    prompt. The values are of the declared types. *)
Record SubtitleLine : Type := {
  index : Z;
  start_time : string;
  end_time : string;
  text : string;
  character : option string
}.

Record CharacterProfile : Type := {
  personality_traits : list string;
  speech_style : string;
  education_level : string
}.

Record MovieDNA : Type := {
  title : string;
  original_title : string;
  year : Z;
  genres : list MovieGenre;
  primary_style : MovieStyle;
  characters : gmap string CharacterProfile
}.

Record TranslationContext : Type := {
  movie_dna : MovieDNA;
  current_scene : string;
  previous_lines : list SubtitleLine;
  next_lines : list SubtitleLine;
  character_dialogue_history : gmap string (list string);
  cultural_references : list string;
  emotional_tone : string
}.

(** A dataclass does not check its field types: what a result holds is
    whatever the decoded reply or the cache entry held. *)
Record TranslationResult : Type := {
  original_text : pyval;
  translated_text : pyval;
  confidence : pyval;
  quality_score : pyval;
  style_score : pyval;
  cultural_score : pyval;
  character_score : pyval;
  suggestions : pyval;
  alternative_translations : pyval
}.

(** The result built in the [except] branches and in [translate_batch]:
    the original text echoed, every score zero. *)
Definition fallback_result (subtitle : SubtitleLine) : TranslationResult :=
  {| original_text := PStr (text subtitle);
     translated_text := PStr (text subtitle);
     confidence := PNum 0%Qc;
     quality_score := PNum 0%Qc;
     style_score := PNum 0%Qc;
     cultural_score := PNum 0%Qc;
     character_score := PNum 0%Qc;
     suggestions := PList [];
     alternative_translations := PList [] |}.

Definition field_names : list string :=
  ["original_text"; "translated_text"; "confidence"; "quality_score";
   "style_score"; "cultural_score"; "character_score"; "suggestions";
   "alternative_translations"].

(** [result.__dict__] *)
Definition __dict__ (r : TranslationResult) : pyval :=
  PDict [("original_text", original_text r);
         ("translated_text", translated_text r);
         ("confidence", confidence r);
         ("quality_score", quality_score r);
         ("style_score", style_score r);
         ("cultural_score", cultural_score r);
         ("character_score", character_score r);
         ("suggestions", suggestions r);
         ("alternative_translations", alternative_translations r)].

(** [TranslationResult] called with [cached_result] unpacked as keyword
    arguments: a [TypeError] unless the value is a mapping that has every
    field and no other key. *)
Definition from_kwargs (cached_result : pyval) : res TranslationResult :=
  match cached_result with
  | PDict d =>
      let arg name :=
        match Py.assoc name d with
        | Some v => Ok v
        | None => Raise (PyError "TypeError")
        end in
      if forallb (λ kv, existsb (String.eqb kv.1) field_names) d then
        let? a1 := arg "original_text" in
        let? a2 := arg "translated_text" in
        let? a3 := arg "confidence" in
        let? a4 := arg "quality_score" in
        let? a5 := arg "style_score" in
        let? a6 := arg "cultural_score" in
        let? a7 := arg "character_score" in
        let? a8 := arg "suggestions" in
        let? a9 := arg "alternative_translations" in
        Ok {| original_text := a1; translated_text := a2; confidence := a3;
              quality_score := a4; style_score := a5; cultural_score := a6;
              character_score := a7; suggestions := a8;
              alternative_translations := a9 |}
      else Raise (PyError "TypeError")
  | _ => Raise (PyError "TypeError")
  end.

(** [self.translation_stats] *)
Record TranslationStats : Type := {
  total_lines : Z;
  avg_quality : Qc;
  avg_confidence : Qc;
  cache_hits : Z
}.

Definition translation_stats0 : TranslationStats :=
  {| total_lines := 0; avg_quality := 0%Qc; avg_confidence := 0%Qc;
     cache_hits := 0 |}.

(** [(current * (total_lines - 1) + score) / total_lines] *)
Definition running_average (current : Qc) (total : Z) (score : pyval) : res Qc :=
  let? sum := Py.add_to (current * Q2Qc (inject_Z (total - 1)))%Qc score in
  if total =? 0 then Raise (PyError "ZeroDivisionError")
  else Ok (sum / Q2Qc (inject_Z total))%Qc.

(** [_update_stats]: each assignment takes effect before the next
    expression is evaluated. *)
Definition _update_stats (result : TranslationResult) (st : TranslationStats)
  : TranslationStats * res unit :=
  let st1 := {| total_lines := total_lines st + 1;
                avg_quality := avg_quality st;
                avg_confidence := avg_confidence st;
                cache_hits := cache_hits st |} in
  match running_average (avg_quality st1) (total_lines st1) (quality_score result) with
  | Raise e => (st1, Raise e)
  | Ok q =>
      let st2 := {| total_lines := total_lines st1;
                    avg_quality := q;
                    avg_confidence := avg_confidence st1;
                    cache_hits := cache_hits st1 |} in
      match running_average (avg_confidence st2) (total_lines st2) (confidence result) with
      | Raise e => (st2, Raise e)
      | Ok cf =>
          ({| total_lines := total_lines st2;
              avg_quality := q;
              avg_confidence := cf;
              cache_hits := cache_hits st2 |}, Ok tt)
      end
  end.

(** [re.search(r'\{.*\}', response_text, re.DOTALL).group()]: from the
    first opening brace to the last closing brace after it. *)
Fixpoint from_open_brace (s : string) : option string :=
  match s with
  | EmptyString => None
  | String a s' =>
      if Ascii.eqb a "{"%char then Some s else from_open_brace s'
  end.

Fixpoint from_close_brace (s : string) : option string :=
  match s with
  | EmptyString => None
  | String a s' =>
      if Ascii.eqb a "}"%char then Some s else from_close_brace s'
  end.

Definition search_json (response_text : string) : option string :=
  match from_open_brace response_text with
  | None => None
  | Some tail =>
      match from_close_brace (String.rev tail) with
      | None => None
      | Some reversed => Some (String.rev reversed)
      end
  end.

(** [x[0]] on a decoded value. *)
Definition first_item (v : pyval) : res pyval :=
  match v with
  | PList (x :: _) => Ok x
  | PList [] => Raise (PyError "IndexError")
  | PStr (String a _) => Ok (PStr (String a EmptyString))
  | PStr EmptyString => Raise (PyError "IndexError")
  | PDict _ => Raise (PyError "KeyError")
  | _ => Raise (PyError "TypeError")
  end.

(** *** The prompt of a request *)

Definition newline : string := String "010"%char "".
Definition dquote : string := String "034"%char "".
Definition quoted (s : string) : string := dquote +:+ s +:+ dquote.

(** [history[-3:]] *)
Definition last_three (history : list string) : list string :=
  drop (length history - 3) history.

(** [_build_context_info]: the lines about the movie, the speaker, the
    neighbouring subtitles and the mood, joined by line breaks. *)
Definition _build_context_info (subtitle : SubtitleLine)
    (context : TranslationContext)
    (character_profile : option CharacterProfile) : string :=
  let movie := movie_dna context in
  let movie_parts :=
    ["**电影**: " +:+ title movie +:+ " (" +:+ pretty (year movie) +:+ ")";
     "**类型**: " +:+ String.concat ", " (genre_value <$> genres movie);
     "**风格**: " +:+ movie_style_value (primary_style movie);
     "**当前场景**: " +:+ current_scene context] in
  let profile_parts :=
    match character_profile with
    | Some profile =>
        ["**角色特征**: " +:+ String.concat ", " (personality_traits profile);
         "**语言风格**: " +:+ speech_style profile;
         "**教育水平**: " +:+ education_level profile]
    | None => []
    end in
  let history_parts :=
    match character subtitle with
    | Some name =>
        if String.eqb name "" then []
        else
          match character_dialogue_history context !! name with
          | Some lines =>
              match last_three lines with
              | [] => []
              | history =>
                  "**角色历史对话**:" ::
                  imap (λ i line, "  " +:+ pretty (S i) +:+ ". " +:+ line)
                    history
              end
          | None => []
          end
    | None => []
    end in
  let previous_parts :=
    match last (previous_lines context) with
    | Some previous => ["**前文**: " +:+ text previous]
    | None => []
    end in
  let next_parts :=
    match next_lines context with
    | next :: _ => ["**后文**: " +:+ text next]
    | [] => []
    end in
  let tone_parts := ["**情感基调**: " +:+ emotional_tone context] in
  let reference_parts :=
    match cultural_references context with
    | [] => []
    | references => ["**文化引用**: " +:+ String.concat ", " references]
    end in
  String.concat newline
    (movie_parts ++ profile_parts ++ history_parts ++ previous_parts ++
     next_parts ++ tone_parts ++ reference_parts).

Definition style_descriptions (style : TranslationStyle) : string :=
  match style with
  | LITERAL => "保持原文结构，忠实于原文表达"
  | CULTURAL => "深度文化适配，让中文观众有相同的观影体验"
  | CREATIVE => "创意翻译，在保持原意的基础上进行艺术化表达"
  | BALANCED => "平衡准确性和流畅度，追求最佳观影体验"
  | PROFESSIONAL => "专业字幕风格，符合行业标准"
  | CASUAL => "口语化风格，贴近日常对话"
  end.

Definition quality_requirements (quality_level : QualityLevel) : string :=
  match quality_level with
  | BASIC => "基础翻译，确保基本意思准确"
  | STANDARD => "标准翻译，兼顾准确性和流畅度"
  | HIGH => "高质量翻译，注重文化适配和角色一致性"
  | PREMIUM => "精品翻译，追求艺术性和情感传递的完美"
  end.

Definition _build_style_requirements (style : TranslationStyle)
    (quality_level : QualityLevel) : string :=
  String.concat newline
    ["**翻译风格**: " +:+ style_descriptions style;
     "**质量等级**: " +:+ quality_requirements quality_level;
     "**特殊要求**: ";
     "- 保持" +:+ style_value style +:+ "的翻译风格";
     "- 达到" +:+ quality_value quality_level +:+ "的质量标准";
     "- 确保翻译的准确性和可读性";
     "- 注重文化差异的处理"].

(** [_build_translation_prompt]: the profile of the speaker, when the
    subtitle names one that the movie knows, then the text of the prompt.
    Every step is a lookup that may find nothing or string formatting. *)
Definition _build_translation_prompt (subtitle : SubtitleLine)
    (context : TranslationContext) (style : TranslationStyle)
    (quality_level : QualityLevel) : string :=
  let character_profile :=
    match character subtitle with
    | Some name =>
        if String.eqb name "" then None
        else characters (movie_dna context) !! name
    | None => None
    end in
  let context_info := _build_context_info subtitle context character_profile in
  let style_requirements := _build_style_requirements style quality_level in
  String.concat newline
    ["请翻译以下电影字幕：";
     "";
     "## 原文";
     "**文本**: " +:+ quoted (text subtitle);
     "**角色**: " +:+ Py.or_else (character subtitle) "未知";
     "**时间**: " +:+ start_time subtitle +:+ " - " +:+ end_time subtitle;
     "";
     "## 上下文信息";
     context_info;
     "";
     "## 翻译风格要求";
     style_requirements;
     "";
     "## 输出格式";
     "请以JSON格式回复，包含以下字段：";
     "{";
     "  " +:+ quoted "translation" +:+ ": " +:+ quoted "最佳翻译结果" +:+ ",";
     "  " +:+ quoted "confidence" +:+ ": 0.95,";
     "  " +:+ quoted "quality_score" +:+ ": 0.9,";
     "  " +:+ quoted "style_score" +:+ ": 0.85,";
     "  " +:+ quoted "cultural_score" +:+ ": 0.8,";
     "  " +:+ quoted "character_score" +:+ ": 0.9,";
     "  " +:+ quoted "suggestions" +:+ ": [" +:+ quoted "建议1" +:+ ", "
       +:+ quoted "建议2" +:+ "],";
     "  " +:+ quoted "alternative_translations" +:+ ": [" +:+ quoted "备选翻译1"
       +:+ ", " +:+ quoted "备选翻译2" +:+ "],";
     "  " +:+ quoted "explanation" +:+ ": " +:+ quoted "翻译说明";
     "}";
     "";
     "## 特殊要求";
     "1. 翻译要符合角色性格特征";
     "2. 保持情感表达的准确性";
     "3. 处理文化差异和习语";
     "4. 确保在当前场景中的连贯性";
     "5. 控制翻译长度，适合字幕显示";
     "";
     "请开始翻译："].

(** The translator with everything it owns: the client and its event
    loop, the shared cache manager with the number of calls made on it,
    and the statistics. *)
Record Translator : Type := {
  client : DeepSeekClient;
  net : Net;
  cache : CacheManager pyval;
  cache_calls : nat;
  translation_stats : TranslationStats
}.

Definition with_client (c : DeepSeekClient) (n : Net) (w : Translator) : Translator :=
  {| client := c; net := n; cache := cache w; cache_calls := cache_calls w;
     translation_stats := translation_stats w |}.

Definition with_cache (m : CacheManager pyval) (w : Translator) : Translator :=
  {| client := client w; net := net w; cache := m;
     cache_calls := S (cache_calls w);
     translation_stats := translation_stats w |}.

Definition with_stats (st : TranslationStats) (w : Translator) : Translator :=
  {| client := client w; net := net w; cache := cache w;
     cache_calls := cache_calls w; translation_stats := st |}.

Section Translator.

(** The transport and [config.api.retry_attempts], as for the client. *)
Variable transport : nat → transport_outcome.
Variable retry_attempts : Z.
(** What the outside decides during the [n]-th call on the cache. *)
Variable envs : nat → Env.
(** [hashlib.md5(..).hexdigest()], [json.loads], and the two conversions
    of the Redis tier. *)
Variable md5 : string → string.
Variable json_loads : string → res pyval.
Variable serialize : pyval → res string.
Variable deserialize : string → pyval.
(** Attribute access [v.name] on a value of a response. On what
    [response.json()] produces it is [Py.getattr]; it is a parameter so
    that the results also hold for a client that answers with objects. *)
Variable getattr : string → pyval → res pyval.

(** [_generate_cache_key]: the digest of the encoded key string. The
    encoding raises when a part holds a surrogate. *)
Definition _generate_cache_key (subtitle : SubtitleLine)
    (context : TranslationContext) (style : TranslationStyle)
    (quality_level : QualityLevel) : res string :=
  let key_parts :=
    [text subtitle;
     match character subtitle with
     | Some c => if String.eqb c "" then "none" else c
     | None => "none"
     end;
     original_title (movie_dna context);
     pretty (year (movie_dna context));
     style_value style;
     quality_value quality_level;
     current_scene context] in
  let key_string := String.concat "|" key_parts in
  let? encoded := Py.encode key_string in
  Ok (md5 encoded).

(** [_parse_simple_response] reads [subtitle.text], and no [subtitle] is in
    scope there: it raises [NameError] whatever the text. *)
Definition _parse_simple_response (response_text : string) : res pyval :=
  Raise (PyError "NameError").

Definition parse_body (response_text : pyval) (subtitle : SubtitleLine)
  : res TranslationResult :=
  match response_text with
  | PStr s =>
      let? data :=
        match search_json s with
        | Some group => json_loads group
        | None => _parse_simple_response s
        end in
      let? a2 := Py.get "translation" (PStr (text subtitle)) data in
      let? a3 := Py.get "confidence" (PNum (Q2Qc (8 # 10))) data in
      let? a4 := Py.get "quality_score" (PNum (Q2Qc (8 # 10))) data in
      let? a5 := Py.get "style_score" (PNum (Q2Qc (8 # 10))) data in
      let? a6 := Py.get "cultural_score" (PNum (Q2Qc (8 # 10))) data in
      let? a7 := Py.get "character_score" (PNum (Q2Qc (8 # 10))) data in
      let? a8 := Py.get "suggestions" (PList []) data in
      let? a9 := Py.get "alternative_translations" (PList []) data in
      Ok {| original_text := PStr (text subtitle); translated_text := a2;
            confidence := a3; quality_score := a4; style_score := a5;
            cultural_score := a6; character_score := a7; suggestions := a8;
            alternative_translations := a9 |}
  | _ => Raise (PyError "TypeError")
  end.

(** The [except] branch logs [response_text[:200]] before it returns the
    basic result: a value that cannot be sliced raises from there. *)
Definition _parse_translation_response (response_text : pyval)
    (subtitle : SubtitleLine) : res TranslationResult :=
  match parse_body response_text subtitle with
  | Ok r => Ok r
  | Raise _ =>
      match response_text with
      | PStr _ | PList _ => Ok (fallback_result subtitle)
      | _ => Raise (PyError "TypeError")
      end
  end.

(** [response.choices[0].message.content] *)
Definition response_content (response : ChatCompletionResponse) : res pyval :=
  let? first := first_item (choices response) in
  let? message := getattr "message" first in
  getattr "content" message.

(** The body of the [try] in [translate_subtitle]. The [prompt] is the
    content of the request; what comes back for the request is the
    transport's to say. *)
Definition translate_remote (prompt : string) (cache_key : string)
    (subtitle : SubtitleLine) (w : Translator)
  : Translator * res TranslationResult :=
  let '(c, n, answer) :=
    chat_completion transport retry_attempts (client w) (net w) in
  let w1 := with_client c n w in
  match (let? response := answer in
         let? content := response_content response in
         _parse_translation_response content subtitle) with
  | Raise e => (w1, Raise e)
  | Ok result =>
      let '(m, stored) :=
        set serialize (envs (cache_calls w1)) cache_key (__dict__ result)
          (Some (86400 * 7)) (cache w1) in
      let w2 := with_cache m w1 in
      match stored with
      | Raise e => (w2, Raise e)
      | Ok _ =>
          let '(st, updated) := _update_stats result (translation_stats w2) in
          let w3 := with_stats st w2 in
          match updated with
          | Raise e => (w3, Raise e)
          | Ok _ => (w3, Ok result)
          end
      end
  end.

(** The cache lookup that opens [translate_subtitle]. *)
Definition cache_lookup (cache_key : string) (w : Translator)
  : CacheManager pyval * res pyval :=
  get deserialize (envs (cache_calls w)) cache_key PNone (cache w).

(** [translate_subtitle]: the key, the cache lookup and the prompt stand
    before the [try]; an exception there reaches the caller. *)
Definition translate_subtitle (subtitle : SubtitleLine)
    (context : TranslationContext) (style : TranslationStyle)
    (quality_level : QualityLevel) (w : Translator)
  : Translator * res TranslationResult :=
  match _generate_cache_key subtitle context style quality_level with
  | Raise e => (w, Raise e)
  | Ok cache_key =>
      let '(m, found) := cache_lookup cache_key w in
      let w1 := with_cache m w in
      match found with
      | Raise e => (w1, Raise e)
      | Ok cached_result =>
          if Py.truthy cached_result then
            let st := translation_stats w1 in
            let w2 :=
              with_stats {| total_lines := total_lines st;
                            avg_quality := avg_quality st;
                            avg_confidence := avg_confidence st;
                            cache_hits := cache_hits st + 1 |} w1 in
            (w2, from_kwargs cached_result)
          else
            let prompt :=
              _build_translation_prompt subtitle context style quality_level in
            match translate_remote prompt cache_key subtitle w1 with
            | (w2, Ok result) => (w2, Ok result)
            | (w2, Raise _) => (w2, Ok (fallback_result subtitle))
            end
      end
  end.

(** Whether [translate_subtitle] in state [w] answers from the cache: the
    key is computed and the lookup gives a value that counts as true. *)
Definition served_from_cache (subtitle : SubtitleLine)
    (context : TranslationContext) (style : TranslationStyle)
    (quality_level : QualityLevel) (w : Translator) : bool :=
  match _generate_cache_key subtitle context style quality_level with
  | Raise _ => false
  | Ok cache_key =>
      match snd (cache_lookup cache_key w) with
      | Ok cached_result => Py.truthy cached_result
      | Raise _ => false
      end
  end.

End Translator.

(** *** [_get_temperature] and [optimize_translation] *)

Definition base_temp (style : TranslationStyle) : Qc :=
  match style with
  | LITERAL => Q2Qc (1 # 10)
  | CULTURAL => Q2Qc (4 # 10)
  | CREATIVE => Q2Qc (7 # 10)
  | BALANCED => Q2Qc (3 # 10)
  | PROFESSIONAL => Q2Qc (2 # 10)
  | CASUAL => Q2Qc (5 # 10)
  end.

Definition quality_adjustment (quality_level : QualityLevel) : Qc :=
  match quality_level with
  | BASIC => Q2Qc (1 # 10)
  | STANDARD => 0%Qc
  | HIGH => Q2Qc (-1 # 10)
  | PREMIUM => Q2Qc (-2 # 10)
  end.

Definition qc_min (x y : Qc) : Qc := if bool_decide (y < x)%Qc then y else x.
Definition qc_max (x y : Qc) : Qc := if bool_decide (x < y)%Qc then y else x.

(** [max(0.0, min(1.0, temp))] *)
Definition _get_temperature (style : TranslationStyle)
    (quality_level : QualityLevel) : Qc :=
  let temp := (base_temp style + quality_adjustment quality_level)%Qc in
  qc_max 0%Qc (qc_min 1%Qc temp).

(** The order of quality levels, lowest first. *)
Definition quality_rank (quality_level : QualityLevel) : nat :=
  match quality_level with
  | BASIC => 0 | STANDARD => 1 | HIGH => 2 | PREMIUM => 3
  end.

(** [min(1.0, score + 0.1)] *)
Definition raised_score (score : pyval) : res pyval :=
  let? sum := Py.add_to (Q2Qc (1 # 10)) score in
  Ok (PNum (qc_min 1%Qc sum)).

(** [suggestions.append(item)]: only a list has the method. *)
Definition appended (suggestions : pyval) (item : pyval) : res pyval :=
  match suggestions with
  | PList l => Ok (PList (l ++ [item]))
  | _ => Raise (PyError "AttributeError")
  end.

Section Optimize.

Variable transport : nat → transport_outcome.
Variable retry_attempts : Z.
Variable getattr : string → pyval → res pyval.

(** [optimize_translation]: the result is updated field by field, in
    place; an exception at any point returns it as far as it got. *)
Definition optimize_translation (result : TranslationResult)
    (feedback : string) (w : Translator) : Translator * TranslationResult :=
  let '(c, n, answer) :=
    chat_completion transport retry_attempts (client w) (net w) in
  let w1 := with_client c n w in
  match (let? response := answer in response_content getattr response) with
  | Raise _ => (w1, result)
  | Ok optimized_text =>
      let r1 :=
        {| original_text := original_text result;
           translated_text := optimized_text;
           confidence := confidence result;
           quality_score := quality_score result;
           style_score := style_score result;
           cultural_score := cultural_score result;
           character_score := character_score result;
           suggestions := suggestions result;
           alternative_translations := alternative_translations result |} in
      match raised_score (quality_score r1) with
      | Raise _ => (w1, r1)
      | Ok q =>
          let r2 :=
            {| original_text := original_text r1;
               translated_text := translated_text r1;
               confidence := confidence r1;
               quality_score := q;
               style_score := style_score r1;
               cultural_score := cultural_score r1;
               character_score := character_score r1;
               suggestions := suggestions r1;
               alternative_translations := alternative_translations r1 |} in
          match appended (suggestions r2)
                  (PStr ("基于反馈优化: " ++ feedback)) with
          | Raise _ => (w1, r2)
          | Ok l =>
              (w1,
               {| original_text := original_text r2;
                  translated_text := translated_text r2;
                  confidence := confidence r2;
                  quality_score := quality_score r2;
                  style_score := style_score r2;
                  cultural_score := cultural_score r2;
                  character_score := character_score r2;
                  suggestions := l;
                  alternative_translations := alternative_translations r2 |})
          end
      end
  end.

End Optimize.

(** *** [translate_batch] *)

Section Batch.

(** The operation run on each unit: [translate_subtitle] in the source. *)
Context {W : Type}.
Variable operation : SubtitleLine → W → W * res TranslationResult.

(** [asyncio.gather] with [return_exceptions=True]: every task runs to
    its end, a raised exception becomes the task's result, and the results
    come back in the order of the tasks. The tasks are run here one after
    the other, in list order; the event loop may switch between the tasks
    of a chunk at their awaits, which bears on the state a task finds, not
    on the slot its result goes to. *)
Fixpoint gather (batch : list SubtitleLine) (w : W)
  : W * list (res TranslationResult) :=
  match batch with
  | [] => (w, [])
  | subtitle :: rest =>
      let '(w1, result) := operation subtitle w in
      let '(w2, results) := gather rest w1 in
      (w2, result :: results)
  end.

(** The loop over [enumerate(batch_results)]. *)
Definition settle (subtitle : SubtitleLine) (result : res TranslationResult)
  : TranslationResult :=
  match result with
  | Raise _ => fallback_result subtitle
  | Ok r => r
  end.

(** [range(i, n, step)] for a positive [step]; at most [fuel] items. *)
Fixpoint range_from (fuel i n step : nat) : list nat :=
  match fuel with
  | O => []
  | S fuel' =>
      if (i <? n)%nat then i :: range_from fuel' (i + step) n step else []
  end.

(** [range(0, n, step)]: an error for a zero step, empty for a negative
    one; a positive step yields at most [n] items. *)
Definition range_step (n : nat) (step : Z) : res (list nat) :=
  if step =? 0 then Raise (PyError "ValueError")
  else if step <? 0 then Ok []
  else Ok (range_from n 0 n (Z.to_nat step)).

(** One turn of [for i in range(0, len(subtitles), batch_size)]. *)
Definition run_chunk (subtitles : list SubtitleLine) (batch_size : Z)
    (acc : W * list TranslationResult) (i : nat) : W * list TranslationResult :=
  let batch := take (Z.to_nat batch_size) (drop i subtitles) in
  let '(w1, batch_results) := gather batch acc.1 in
  (w1, acc.2 ++ zip_with settle batch batch_results).

Definition translate_batch (config_batch_size : Z)
    (subtitles : list SubtitleLine) (batch_size : option Z) (w : W)
  : W * res (list TranslationResult) :=
  let batch_size := default config_batch_size batch_size in
  match range_step (length subtitles) batch_size with
  | Raise e => (w, Raise e)
  | Ok starts =>
      let '(w', results) :=
        fold_left (run_chunk subtitles batch_size) starts (w, []) in
      (w', Ok results)
  end.

End Batch.

End Engine.

(** ** Properties of the translation engine *)

Module EngineFacts.
Import Client Cache Engine.

(** *** The batch *)

Section Batch.

Context {W : Type}.
Variable operation : SubtitleLine → W → W * res TranslationResult.

Abbreviation gather := (gather operation).

Lemma gather_length batch : ∀ w, length (gather batch w).2 = length batch.
Proof.
  induction batch as [|u batch IH]; intros w; simpl; [done|].
  destruct (operation u w) as [w1 r]. specialize (IH w1).
  destruct (gather batch w1). simpl in *. by rewrite IH.
Qed.

(** Gathering two batches one after the other is gathering them as one. *)
Lemma gather_app batch1 batch2 : ∀ w,
  gather (batch1 ++ batch2) w =
  ((gather batch2 (gather batch1 w).1).1,
   (gather batch1 w).2 ++ (gather batch2 (gather batch1 w).1).2).
Proof.
  induction batch1 as [|u batch1 IH]; intros w; simpl.
  - by destruct (gather batch2 w).
  - destruct (operation u w) as [w1 r]. rewrite IH.
    destruct (gather batch1 w1) as [w2 rs]. simpl.
    by destruct (gather batch2 w2).
Qed.

(** The result at position [i] is the outcome of the operation on unit [i],
    run in the state the units before it left. *)
Lemma gather_lookup batch : ∀ w i u,
  batch !! i = Some u →
  (gather batch w).2 !! i =
  Some (operation u (gather (take i batch) w).1).2.
Proof.
  induction batch as [|v batch IH]; intros w i u Hi; [done|].
  destruct i as [|i]; simpl in *.
  - injection Hi as ->. destruct (operation u w) as [w1 r].
    by destruct (gather batch w1).
  - destruct (operation v w) as [w1 r]. specialize (IH w1 i u Hi).
    destruct (gather batch w1) as [w2 rs].
    destruct (gather (take i batch) w1) as [w3 rs3]. done.
Qed.

(** A batch cut in two: the results settle chunk by chunk. *)
Lemma gather_split k batch w :
  let head := gather (take k batch) w in
  let tail := gather (drop k batch) head.1 in
  (gather batch w).1 = tail.1 ∧
  zip_with settle batch (gather batch w).2 =
  zip_with settle (take k batch) head.2 ++ zip_with settle (drop k batch) tail.2.
Proof.
  pose proof (take_drop k batch) as Hcut.
  remember (take k batch) as batch1. remember (drop k batch) as batch2.
  rewrite <- Hcut, gather_app. simpl. split; [done|].
  apply zip_with_app. by rewrite gather_length.
Qed.

(** The chunks, run one after the other, are the whole list run once. *)
Lemma chunks_flat subtitles batch_size :
  0 < batch_size →
  ∀ fuel i acc,
    (length subtitles - i ≤ fuel)%nat →
    fold_left (run_chunk operation subtitles batch_size)
      (range_from fuel i (length subtitles) (Z.to_nat batch_size)) acc =
    ((gather (drop i subtitles) acc.1).1,
     acc.2 ++ zip_with settle (drop i subtitles)
                (gather (drop i subtitles) acc.1).2).
Proof.
  intros Hpos. induction fuel as [|fuel IH]; intros i [w results] Hfuel; simpl.
  - rewrite drop_ge by lia. simpl. by rewrite app_nil_r.
  - destruct (Nat.ltb_spec i (length subtitles)) as [Hlt|Hge].
    2:{ rewrite drop_ge by lia. simpl. by rewrite app_nil_r. }
    simpl. unfold run_chunk at 2. simpl.
    destruct (gather_split (Z.to_nat batch_size) (drop i subtitles) w)
      as [Hw Hr].
    rewrite drop_drop in Hw, Hr.
    destruct (gather (take (Z.to_nat batch_size) (drop i subtitles)) w)
      as [w1 batch_results].
    rewrite IH by lia. simpl in *. by rewrite Hw, Hr, app_assoc.
Qed.

(** With a positive batch size the chunked loop returns what one pass over
    the whole list settles. *)
Lemma translate_batch_flat config_batch_size subtitles batch_size w :
  0 < default config_batch_size batch_size →
  (translate_batch operation config_batch_size subtitles batch_size w).2 =
  Ok (zip_with settle subtitles (gather subtitles w).2).
Proof.
  intros Hpos. unfold translate_batch, range_step.
  destruct (Z.eqb_spec (default config_batch_size batch_size) 0); [lia|].
  destruct (Z.ltb_spec (default config_batch_size batch_size) 0); [lia|].
  rewrite (chunks_flat subtitles _ Hpos (length subtitles) 0%nat (w, []))
    by lia.
  simpl. by rewrite drop_0.
Qed.

Lemma settled_length subtitles w :
  length (zip_with settle subtitles (gather subtitles w).2) = length subtitles.
Proof. rewrite length_zip_with, gather_length. lia. Qed.

Lemma settled_lookup subtitles w i subtitle :
  subtitles !! i = Some subtitle →
  zip_with settle subtitles (gather subtitles w).2 !! i =
  Some (settle subtitle (operation subtitle (gather (take i subtitles) w).1).2).
Proof.
  intros Hi. rewrite lookup_zip_with, Hi. simpl.
  by rewrite (gather_lookup subtitles w i subtitle Hi).
Qed.

(** C4 (as the code has it). With a positive batch size,
    [translate_batch] returns, without raising, as many results as there
    are units. When the operation returns a result for unit [i], that
    result is at position [i]; when it raises there, position [i] holds
    the fallback built from unit [i]: its text as original and as
    translated text, every score zero, both lists empty. So a unit that
    fails changes no other slot. *)
Theorem translate_batch_ordered config_batch_size subtitles batch_size w :
  0 < default config_batch_size batch_size →
  ∃ results,
    (translate_batch operation config_batch_size subtitles batch_size w).2
      = Ok results ∧
    length results = length subtitles ∧
    ∀ i subtitle,
      subtitles !! i = Some subtitle →
      match (operation subtitle (gather (take i subtitles) w).1).2 with
      | Ok result => results !! i = Some result
      | Raise _ =>
          results !! i =
          Some {| original_text := PStr (text subtitle);
                  translated_text := PStr (text subtitle);
                  confidence := PNum 0%Qc;
                  quality_score := PNum 0%Qc;
                  style_score := PNum 0%Qc;
                  cultural_score := PNum 0%Qc;
                  character_score := PNum 0%Qc;
                  suggestions := PList [];
                  alternative_translations := PList [] |}
      end.
Proof.
  intros Hpos.
  exists (zip_with settle subtitles (gather subtitles w).2).
  split; [by apply translate_batch_flat|].
  split; [apply settled_length|]. intros i subtitle Hi.
  rewrite (settled_lookup subtitles w i subtitle Hi).
  by destruct (operation subtitle (gather (take i subtitles) w).1).2.
Qed.

(** X30. A batch size that is not positive translates nothing: zero
    raises [ValueError] from [range], a negative one returns an empty list
    for any number of units; in both cases no operation has run. *)
Theorem nonpositive_batch_size config_batch_size subtitles size w :
  size ≤ 0 →
  translate_batch operation config_batch_size subtitles (Some size) w =
  (w, if size =? 0 then Raise (PyError "ValueError") else Ok []).
Proof.
  intros Hsize. unfold translate_batch, range_step. simpl.
  destruct (Z.eqb_spec size 0); [done|].
  destruct (Z.ltb_spec size 0); [done|lia].
Qed.

End Batch.

Section Translator.

Variable transport : nat → transport_outcome.
Variable retry_attempts : Z.
Variable envs : nat → Env.
Variable md5 : string → string.
Variable json_loads : string → res pyval.
Variable serialize : pyval → res string.
Variable deserialize : string → pyval.
Variable getattr : string → pyval → res pyval.

Abbreviation translate_subtitle :=
  (translate_subtitle transport retry_attempts envs md5 json_loads serialize
     deserialize getattr).
Abbreviation translate_remote :=
  (translate_remote transport retry_attempts envs json_loads serialize getattr).
Abbreviation served_from_cache := (served_from_cache envs md5 deserialize).



Lemma parse_original_text response_text subtitle r :
  _parse_translation_response json_loads response_text subtitle = Ok r →
  original_text r = PStr (text subtitle).
Proof.
  unfold _parse_translation_response.
  destruct (parse_body json_loads response_text subtitle) as [r'|e] eqn:Hb.
  - intros [= <-]. unfold parse_body in Hb.
    destruct response_text; try done.
    repeat match type of Hb with
           | res_bind ?x _ = _ => destruct x; simpl in Hb; [|done]
           end.
    by injection Hb as <-.
  - destruct response_text; try done; by intros [= <-].
Qed.

Lemma translate_remote_original_text prompt cache_key subtitle w w' r :
  translate_remote prompt cache_key subtitle w = (w', Ok r) →
  original_text r = PStr (text subtitle).
Proof.
  unfold Engine.translate_remote.
  destruct (chat_completion _ _ _ _) as [[c n] answer].
  destruct (res_bind answer _) as [result|e] eqn:Hparse; [|done].
  destruct (set _ _ _ _ _ _) as [m [[]|e]]; [|done].
  destruct (_update_stats _ _) as [st [[]|e]]; [|done].
  intros [= _ <-].
  destruct answer as [response|]; [|done]. simpl in Hparse.
  destruct (response_content getattr response); [|done].
  by eapply parse_original_text.
Qed.


(** A result built from a cached mapping has the [original_text] of the
    mapping. *)
Lemma from_kwargs_original_text cached_result r :
  from_kwargs cached_result = Ok r →
  Py.getitem "original_text" cached_result = Ok (original_text r).
Proof.
  unfold from_kwargs. destruct cached_result as [| | | | |d]; try done.
  destruct (forallb _ d); [|done]. simpl.
  destruct (Py.assoc "original_text" d) as [a1|]; [|done]. simpl.
  repeat match goal with
         | |- res_bind (match ?x with _ => _ end) _ = _ → _ =>
             destruct x; simpl; [|done]
         end.
  by intros [= <-].
Qed.

(** The key fails in one way only. *)
Lemma generate_cache_key_raises subtitle context style quality_level e :
  _generate_cache_key md5 subtitle context style quality_level = Raise e →
  e = PyError "UnicodeEncodeError".
Proof.
  unfold _generate_cache_key, Py.encode.
  destruct (Py.has_surrogate _); simpl; [|done]. by intros [= <-].
Qed.

(** C10 (as the code has it). When the key is computed and the cache
    lookup does not answer, [translate_subtitle] returns a result, whatever
    the transport, the decoding of the reply and the stores do, and the
    result's [original_text] is the text of the subtitle. When the lookup
    answers, the call returns or raises what building a result from the
    cached value returns or raises; a result it returns has the
    [original_text] that was cached. When the key string cannot be
    encoded, the call raises [UnicodeEncodeError] and nothing has been
    done. *)
Theorem translate_subtitle_total_on_miss subtitle context style quality_level w :
  let run := translate_subtitle subtitle context style quality_level w in
  match _generate_cache_key md5 subtitle context style quality_level with
  | Ok cache_key =>
      (served_from_cache subtitle context style quality_level w = false →
       ∃ r, run.2 = Ok r ∧ original_text r = PStr (text subtitle)) ∧
      (∀ cached_result,
         (cache_lookup envs deserialize cache_key w).2 = Ok cached_result →
         Py.truthy cached_result = true →
         run.2 = from_kwargs cached_result ∧
         ∀ r, run.2 = Ok r →
              Py.getitem "original_text" cached_result = Ok (original_text r))
  | Raise e =>
      e = PyError "UnicodeEncodeError" ∧ run = (w, Raise e)
  end.
Proof.
  unfold Engine.served_from_cache, Engine.translate_subtitle.
  destruct (_generate_cache_key md5 subtitle context style quality_level)
    as [cache_key|e] eqn:Hkey; simpl.
  2:{ split; [by eapply generate_cache_key_raises|done]. }
  destruct (CacheFacts.get_returns deserialize
              (envs (cache_calls w)) cache_key PNone (cache w)) as [v Hv].
  unfold cache_lookup in *.
  destruct (get _ _ _ _ _) as [m found]. simpl in Hv |- *. subst found.
  split.
  - intros ->.
    destruct (Engine.translate_remote _ _ _ _ _ _ _ _ _ _) as [w2 [r|e]] eqn:Hr.
    + exists r. split; [done|]. by eapply translate_remote_original_text.
    + by exists (fallback_result subtitle).
  - intros cached_result [= <-] ->. split; [done|].
    intros r. apply from_kwargs_original_text.
Qed.



End Translator.

(** *** What the engine does with an answer, a cached result and a key *)

Lemma response_content_raises response :
  ∃ e, response_content Py.getattr response = Raise e.
Proof.
  unfold response_content.
  destruct (first_item (choices response)); simpl; eauto.
Qed.

(** X23. A result written to the cache as [__dict__] is rebuilt as the
    same result. *)
Theorem from_kwargs_dict r : from_kwargs (__dict__ r) = Ok r.
Proof. destruct r. reflexivity. Qed.

Lemma append_assoc (a b c : string) : (a +:+ b) +:+ c = a +:+ b +:+ c.
Proof.
  induction a as [|x a IH]; [done|].
  change (String x ((a +:+ b) +:+ c) = String x (a +:+ b +:+ c)).
  by f_equal.
Qed.

Lemma eqb_empty_bar (b c : string) : String.eqb (b +:+ "|" +:+ c) "" = false.
Proof. by destruct b. Qed.

Section Keys.

Variable md5 : string → string.

(** X25. Cache keys do not tell subtitles apart when a part holds a bar:
    text [a] spoken by [b|c] and text [a|b] spoken by [c] get the same
    key, whatever the digest, and so do a missing character and a
    character named [none]. Index and times play no part. *)
Theorem cache_keys_collide (a b c : string) i1 s1 e1 i2 s2 e2 context style
    quality_level :
  c ≠ "" →
  _generate_cache_key md5
    {| index := i1; start_time := s1; end_time := e1;
       text := a; character := Some (b +:+ "|" +:+ c) |}
    context style quality_level =
  _generate_cache_key md5
    {| index := i2; start_time := s2; end_time := e2;
       text := a +:+ "|" +:+ b; character := Some c |}
    context style quality_level
  ∧
  _generate_cache_key md5
    {| index := i1; start_time := s1; end_time := e1;
       text := a; character := None |}
    context style quality_level =
  _generate_cache_key md5
    {| index := i2; start_time := s2; end_time := e2;
       text := a; character := Some "none" |}
    context style quality_level.
Proof.
  intros Hc. split; [|done]. unfold _generate_cache_key. simpl.
  rewrite eqb_empty_bar.
  assert (String.eqb c "" = false) as -> by (by apply String.eqb_neq).
  by rewrite !append_assoc.
Qed.

End Keys.

(** X26. The sampling temperature is always between 0 and 1, and for every
    style a higher quality level never gives a higher temperature. *)
Theorem temperature_in_range_and_antitone style q1 q2 :
  (quality_rank q1 ≤ quality_rank q2)%nat →
  (0 ≤ _get_temperature style q2)%Qc ∧
  (_get_temperature style q2 ≤ _get_temperature style q1)%Qc ∧
  (_get_temperature style q1 ≤ 1)%Qc.
Proof.
  intros Hrank.
  destruct style, q1, q2; simpl in Hrank; try lia; by vm_compute.
Qed.

Section Parse.

Variable json_loads : string → res pyval.

(** X27. A reply from which no JSON object can be read gives the fallback
    result, scores zero: with no braces in it the simple parser is called
    and raises before it reads a line, and a text between braces that
    does not decode raises as well. *)
Theorem unreadable_reply_falls_back response_text subtitle :
  (search_json response_text = None ∨
   ∃ group e, search_json response_text = Some group
              ∧ json_loads group = Raise e) →
  _parse_translation_response json_loads (PStr response_text) subtitle
    = Ok (fallback_result subtitle).
Proof.
  unfold _parse_translation_response, parse_body.
  intros [-> | (group & e & -> & ->)]; done.
Qed.

End Parse.

Lemma seconds_nonzero z : z ≠ 0 → Q2Qc (inject_Z z) ≠ 0%Qc.
Proof.
  intros Hz H. apply (f_equal this) in H. simpl in H.
  pose proof (Qred_correct (inject_Z z)) as Hred. rewrite H in Hred.
  unfold Qeq in Hred. simpl in Hred. lia.
Qed.

(** With numeric scores, and the averages read as rationals,
    [_update_stats] keeps running means: the line count grows by one, and
    each average times the new count is the old average times the old
    count plus the new score. *)
Theorem update_stats_running_mean result st q cf :
  quality_score result = PNum q →
  confidence result = PNum cf →
  0 ≤ total_lines st →
  let st' := (_update_stats result st).1 in
  (_update_stats result st).2 = Ok tt ∧
  total_lines st' = total_lines st + 1 ∧
  (avg_quality st' * Q2Qc (inject_Z (total_lines st')) =
   avg_quality st * Q2Qc (inject_Z (total_lines st)) + q)%Qc ∧
  (avg_confidence st' * Q2Qc (inject_Z (total_lines st')) =
   avg_confidence st * Q2Qc (inject_Z (total_lines st)) + cf)%Qc.
Proof.
  intros Hq Hcf Hn. unfold _update_stats, running_average. simpl.
  rewrite Hq, Hcf. simpl.
  destruct (Z.eqb_spec (total_lines st + 1) 0); [lia|]. simpl.
  replace (total_lines st + 1 - 1) with (total_lines st) by lia.
  assert (Q2Qc (inject_Z (total_lines st + 1)) ≠ 0%Qc)
    by (apply seconds_nonzero; lia).
  repeat split; field; done.
Qed.

(** Whether [x + 0.0] is defined for a decoded value. *)
Definition numeric (v : pyval) : bool :=
  match v with PNum _ | PBool _ => true | _ => false end.

(** X28. A quality score that is not a number (a string, a list, [None])
    makes [_update_stats] raise [TypeError] after it has counted the line:
    [total_lines] is one more and both averages are as before. *)
Theorem update_stats_counts_before_it_fails result st :
  numeric (quality_score result) = false →
  (_update_stats result st).2 = Raise (PyError "TypeError") ∧
  total_lines (_update_stats result st).1 = total_lines st + 1 ∧
  avg_quality (_update_stats result st).1 = avg_quality st ∧
  avg_confidence (_update_stats result st).1 = avg_confidence st.
Proof.
  unfold _update_stats, running_average. simpl.
  destruct (quality_score result); simpl; done.
Qed.

Section Answers.

Variable transport : nat → transport_outcome.
Variable retry_attempts : Z.
Variable envs : nat → Env.
Variable md5 : string → string.
Variable json_loads : string → res pyval.
Variable serialize : pyval → res string.
Variable deserialize : string → pyval.

(** X20. With the attribute access of decoded JSON, the answer of the
    service is never used: [response.choices[0]] is a dictionary and
    reading [.message] from it raises. A unit whose key is computed and
    that the cache does not answer gets its fallback result whatever the
    transport returns, the cache is not written and the statistics are not
    updated. *)
Theorem answer_is_never_used subtitle context style quality_level w cache_key :
  _generate_cache_key md5 subtitle context style quality_level = Ok cache_key →
  served_from_cache envs md5 deserialize subtitle context style quality_level w
    = false →
  let run := translate_subtitle transport retry_attempts envs md5 json_loads
               serialize deserialize Py.getattr subtitle context style
               quality_level w in
  run.2 = Ok (fallback_result subtitle) ∧
  cache run.1 = (cache_lookup envs deserialize cache_key w).1 ∧
  cache_calls run.1 = S (cache_calls w) ∧
  translation_stats run.1 = translation_stats w.
Proof.
  unfold served_from_cache, translate_subtitle, translate_remote.
  intros ->.
  destruct (CacheFacts.get_returns deserialize
              (envs (cache_calls w)) cache_key PNone (cache w)) as [v Hv].
  unfold cache_lookup in *.
  destruct (get _ _ _ _ _) as [m found]. simpl in Hv |- *. subst found.
  intros ->.
  destruct (chat_completion _ _ _ _) as [[c n] [response|e]]; simpl; [|done].
  by destruct (response_content_raises response) as [e ->].
Qed.

(** X24. When the cache answers with the dictionary of a result, that
    result is returned: no request is sent, the client's counters stay as
    they are, and the cache hit is counted. *)
Theorem cached_result_is_returned getattr subtitle context style quality_level w
    cache_key r :
  _generate_cache_key md5 subtitle context style quality_level = Ok cache_key →
  (cache_lookup envs deserialize cache_key w).2 = Ok (__dict__ r) →
  let run := translate_subtitle transport retry_attempts envs md5 json_loads
               serialize deserialize getattr subtitle context style
               quality_level w in
  run.2 = Ok r ∧
  net run.1 = net w ∧
  client run.1 = client w ∧
  cache_hits (translation_stats run.1) = cache_hits (translation_stats w) + 1.
Proof.
  unfold translate_subtitle. intros ->.
  destruct (cache_lookup _ _ _ _) as [m found]. simpl. intros ->.
  change (Py.truthy (__dict__ r)) with true. cbv iota.
  by destruct r.
Qed.

(** X21. [optimize_translation] never changes [original_text], and when
    the request fails it returns the result exactly as it was given. *)
Theorem optimize_keeps_original_text getattr result feedback w :
  let run := optimize_translation transport retry_attempts getattr result
               feedback w in
  original_text run.2 = original_text result ∧
  (is_ok (chat_completion transport retry_attempts (client w) (net w)).2 = false →
   run.2 = result).
Proof.
  unfold optimize_translation.
  destruct (chat_completion _ _ _ _) as [[c n] [response|e]]; simpl; [|done].
  split; [|done].
  destruct (response_content getattr response); simpl; [|done].
  destruct (raised_score _); simpl; [|done].
  by destruct (appended _ _).
Qed.

(** X22. With the attribute access of decoded JSON,
    [optimize_translation] changes nothing: reading [.message] from the
    answer raises before any field is assigned, and the result comes back
    as it was given, whatever the service answers. *)
Theorem optimize_changes_nothing result feedback w :
  (optimize_translation transport retry_attempts Py.getattr result feedback w).2
    = result.
Proof.
  unfold optimize_translation.
  destruct (chat_completion _ _ _ _) as [[c n] [response|e]]; simpl; [|done].
  by destruct (response_content_raises response) as [e ->].
Qed.

End Answers.

(** *** Concrete inputs *)

Definition refused : nat → transport_outcome :=
  λ _, RequestFailed (ClientError "Connection refused").

Definition no_json : string → res pyval :=
  λ _, Raise (PyError "JSONDecodeError").

Definition as_text : pyval → res string := λ _, Ok "".

Definition quiet : nat → Env := λ _, CacheFacts.at_time 10.

(** A stand-in for the digest: the encoded key string itself. *)
Definition plain : string → string := λ key_string, key_string.

Definition heat : TranslationContext :=
  {| movie_dna :=
       {| title := "Heat"; original_title := "Heat"; year := 1995;
          genres := [CRIME; DRAMA]; primary_style := DARK;
          characters :=
            {[ "Neil" := {| personality_traits := ["disciplined"; "solitary"];
                            speech_style := "terse";
                            education_level := "medium" |} ]} |};
     current_scene := "diner";
     previous_lines := [];
     next_lines := [];
     character_dialogue_history := ∅;
     cultural_references := [];
     emotional_tone := "tense" |}.

Definition hello : SubtitleLine :=
  {| index := 1; start_time := "00:00:01,000"; end_time := "00:00:02,000";
     text := "Hello"; character := None |}.

Definition hello_key : string := "Hello|none|Heat|1995|平衡|高|diner".

Definition hello_cached : TranslationResult :=
  {| original_text := PStr "Hello";
     translated_text := PStr "Ni hao";
     confidence := PNum (Q2Qc (95 # 100));
     quality_score := PNum (Q2Qc (9 # 10));
     style_score := PNum (Q2Qc (85 # 100));
     cultural_score := PNum (Q2Qc (8 # 10));
     character_score := PNum (Q2Qc (9 # 10));
     suggestions := PList [];
     alternative_translations := PList [] |}.

(** A translator whose memory tier holds [value] under [key], written at
    time 0 for a week. *)
Definition warm (key : string) (value : pyval) : Translator :=
  {| client := new_client;
     net := net0;
     cache := fst (set as_text (CacheFacts.at_time 0) key value
                     (Some (86400 * 7)) (new_cache 3600 false));
     cache_calls := 0;
     translation_stats := translation_stats0 |}.

Definition translate_hello (subtitle : SubtitleLine) (w : Translator)
  : Translator * res TranslationResult :=
  Engine.translate_subtitle refused 3 quiet plain no_json as_text PStr
    Py.getattr subtitle heat BALANCED HIGH w.


(** The context lines of a subtitle that Neil speaks in [heat]. *)
Example context_info_of_a_line :
  _build_context_info
    {| index := 7; start_time := "00:10:00,000"; end_time := "00:10:02,000";
       text := "I do what I do best."; character := Some "Neil" |}
    heat (characters (movie_dna heat) !! "Neil")
  = String.concat newline
      ["**电影**: Heat (1995)";
       "**类型**: 犯罪, 剧情";
       "**风格**: 黑暗深沉";
       "**当前场景**: diner";
       "**角色特征**: disciplined, solitary";
       "**语言风格**: terse";
       "**教育水平**: medium";
       "**情感基调**: tense"].
Proof. by vm_compute. Qed.


(** Two subtitles with different texts and one key string: the parts are
    joined with a bar, and a part may hold a bar. *)
Definition line_a : SubtitleLine :=
  {| index := 1; start_time := "00:00:01,000"; end_time := "00:00:02,000";
     text := "a"; character := Some "b|c" |}.

Definition line_a_b : SubtitleLine :=
  {| index := 2; start_time := "00:00:03,000"; end_time := "00:00:04,000";
     text := "a|b"; character := Some "c" |}.

Definition shared_key : string := "a|b|c|Heat|1995|平衡|高|diner".

Lemma cache_key_collision md5 context style quality_level :
  _generate_cache_key md5 line_a context style quality_level =
  _generate_cache_key md5 line_a_b context style quality_level.
Proof. reflexivity. Qed.

Definition cold : Translator :=
  {| client := new_client;
     net := net0;
     cache := new_cache 3600 false;
     cache_calls := 0;
     translation_stats := translation_stats0 |}.

Definition line (n : Z) (words : string) : SubtitleLine :=
  {| index := n; start_time := "00:00:00,000"; end_time := "00:00:01,000";
     text := words; character := None |}.

(** The code point U+D800 alone, as a string may hold it. *)
Definition lone_surrogate : string :=
  String "237"%char (String "160"%char (String "128"%char "")).

(** C10, at three calls. With the result of [line_a] in the cache,
    [translate_subtitle] on [line_a_b] returns a result whose
    [original_text] is not the text of [line_a_b]; with a string in the
    cache under the key, it raises [TypeError] to its caller; and with an
    empty cache, a subtitle whose text is a lone surrogate raises
    [UnicodeEncodeError] to its caller, before the cache is looked up. *)
Lemma cache_hit_escapes_the_unit_boundary :
  _generate_cache_key plain line_a_b heat BALANCED HIGH = Ok shared_key ∧
  (∃ r, (translate_hello line_a_b
           (warm shared_key (__dict__ (fallback_result line_a)))).2 = Ok r
        ∧ original_text r = PStr "a"
        ∧ original_text r ≠ PStr (text line_a_b)) ∧
  (translate_hello line_a_b (warm shared_key (PStr "stale"))).2
    = Raise (PyError "TypeError") ∧
  translate_hello (line 1 lone_surrogate) cold
    = (cold, Raise (PyError "UnicodeEncodeError")).
Proof.
  split; [by vm_compute|]. split; [|split; by vm_compute].
  exists (fallback_result line_a). split; [by vm_compute|].
  split; [done|discriminate].
Qed.

(** *** Further concrete inputs *)

(** An operation that counts its calls, translates by prefixing, and
    raises on the text [boom]. *)
Definition flaky (subtitle : SubtitleLine) (seen : nat)
  : nat * res TranslationResult :=
  (S seen,
   if String.eqb (text subtitle) "boom" then Raise (PyError "RuntimeError")
   else Ok {| original_text := PStr (text subtitle);
              translated_text := PStr ("zh:" ++ text subtitle);
              confidence := PNum 1%Qc;
              quality_score := PNum 1%Qc;
              style_score := PNum 1%Qc;
              cultural_score := PNum 1%Qc;
              character_score := PNum 1%Qc;
              suggestions := PList [];
              alternative_translations := PList [] |}).

Definition five : list SubtitleLine :=
  [line 1 "one"; line 2 "two"; line 3 "boom"; line 4 "four"; line 5 "five"].

Lemma translate_batch_ordered_witness :
  0 < default 10 (Some 2) ∧
  ∃ results,
    (translate_batch flaky 10 five (Some 2) 0%nat).2 = Ok results ∧
    length results = length five ∧
    ∀ i subtitle,
      five !! i = Some subtitle →
      match (flaky subtitle (gather flaky (take i five) 0%nat).1).2 with
      | Ok result => results !! i = Some result
      | Raise _ =>
          results !! i =
          Some {| original_text := PStr (text subtitle);
                  translated_text := PStr (text subtitle);
                  confidence := PNum 0%Qc;
                  quality_score := PNum 0%Qc;
                  style_score := PNum 0%Qc;
                  cultural_score := PNum 0%Qc;
                  character_score := PNum 0%Qc;
                  suggestions := PList [];
                  alternative_translations := PList [] |}
      end.
Proof.
  split; [reflexivity|]. apply translate_batch_ordered. reflexivity.
Defined.

(** Five units in chunks of two, the third failing: five results in input
    order, the third the fallback, all five operations run. *)
Example batch_isolation :
  let run := translate_batch flaky 10 five (Some 2) 0%nat in
  run.1 = 5%nat ∧
  (translated_text <$> default [] (match run.2 with Ok rs => Some rs | Raise _ => None end))
    = [PStr "zh:one"; PStr "zh:two"; PStr "boom"; PStr "zh:four"; PStr "zh:five"] ∧
  (∃ rs, run.2 = Ok rs ∧ rs !! 2%nat = Some (fallback_result (line 3 "boom"))).
Proof.
  split; [by vm_compute|]. split; [by vm_compute|].
  eexists. split; [by vm_compute|]. by vm_compute.
Qed.

(** C4, at five units and a batch size passed by the caller, which nothing
    checks: with 0 the call raises [ValueError], with -1 it returns no
    result at all; neither time is an operation run. *)
Lemma unchecked_batch_size :
  length five = 5%nat ∧
  translate_batch flaky 10 five (Some 0) 0%nat
    = (0%nat, Raise (PyError "ValueError")) ∧
  translate_batch flaky 10 five (Some (-1)) 0%nat = (0%nat, Ok []).
Proof. by vm_compute. Qed.

Lemma translate_subtitle_total_on_miss_witness :
  _generate_cache_key plain hello heat BALANCED HIGH = Ok hello_key ∧
  served_from_cache quiet plain PStr hello heat BALANCED HIGH cold = false ∧
  ∃ r, snd (translate_hello hello cold) = Ok r
       ∧ original_text r = PStr (text hello).
Proof.
  split; [by vm_compute|]. split; [by vm_compute|].
  pose proof (translate_subtitle_total_on_miss refused 3 quiet plain no_json
                as_text PStr Py.getattr hello heat BALANCED HIGH cold) as H.
  change (_generate_cache_key plain hello heat BALANCED HIGH)
    with (@Ok string hello_key) in H.
  destruct H as [Hmiss _]. apply Hmiss. by vm_compute.
Defined.


(** While the service is out, a unit whose key cannot be computed ends as
    its fallback too: the exception is raised by [translate_subtitle] and
    replaced in the batch. *)
Example unencodable_unit_in_a_batch :
  translate_batch translate_hello 10 [line 1 lone_surrogate; hello] None cold
  = ((translate_hello hello cold).1,
     Ok [fallback_result (line 1 lone_surrogate); fallback_result hello]).
Proof. by vm_compute. Qed.

(** On what [response.json()] yields, reading [.message] raises: a reply
    that arrives is never parsed, and an uncached unit gets its fallback
    result even when the service answers. *)
Example answered_unit_falls_back :
  let reply :=
    PDict [("id", PStr "1"); ("object", PStr "chat.completion");
           ("created", PNum 0%Qc); ("model", PStr "deepseek-chat");
           ("choices",
            PList [PDict [("message",
                           PDict [("content", PStr "{}")])]])] in
  (Engine.translate_subtitle (λ _, Responded 200 1%Qc (Ok reply)) 3 quiet
     plain no_json as_text PStr Py.getattr hello heat BALANCED HIGH cold).2
  = Ok (fallback_result hello).
Proof. by vm_compute. Qed.

(** A service that answers every request with a well-formed completion. *)
Definition answering : nat → transport_outcome :=
  λ _, Responded 200 1%Qc
         (Ok (PDict [("id", PStr "1"); ("object", PStr "chat.completion");
                     ("created", PNum 0%Qc); ("model", PStr "deepseek-chat");
                     ("choices",
                      PList [PDict [("message",
                                     PDict [("content", PStr "{}")])]])])).

Lemma answer_is_never_used_witness :
  _generate_cache_key plain hello heat BALANCED HIGH = Ok hello_key ∧
  served_from_cache quiet plain PStr hello heat BALANCED HIGH cold = false ∧
  let run := Engine.translate_subtitle answering 3 quiet plain no_json as_text
               PStr Py.getattr hello heat BALANCED HIGH cold in
  run.2 = Ok (fallback_result hello) ∧
  cache run.1 = (cache_lookup quiet PStr hello_key cold).1 ∧
  cache_calls run.1 = S (cache_calls cold) ∧
  translation_stats run.1 = translation_stats cold.
Proof.
  split; [by vm_compute|]. split; [by vm_compute|].
  apply answer_is_never_used; by vm_compute.
Defined.

Lemma cached_result_is_returned_witness :
  let w := warm hello_key (__dict__ hello_cached) in
  _generate_cache_key plain hello heat BALANCED HIGH = Ok hello_key ∧
  (cache_lookup quiet PStr hello_key w).2 = Ok (__dict__ hello_cached) ∧
  let run := Engine.translate_subtitle answering 3 quiet plain no_json as_text
               PStr Py.getattr hello heat BALANCED HIGH w in
  run.2 = Ok hello_cached ∧
  net run.1 = net w ∧
  client run.1 = client w ∧
  cache_hits (translation_stats run.1) = cache_hits (translation_stats w) + 1.
Proof.
  split; [by vm_compute|]. split; [by vm_compute|].
  apply (cached_result_is_returned answering 3 quiet plain no_json as_text PStr
           Py.getattr hello heat BALANCED HIGH _ hello_key); by vm_compute.
Defined.

Lemma cache_keys_collide_witness :
  "c" ≠ "" ∧
  _generate_cache_key plain
    {| index := 1; start_time := "0"; end_time := "1";
       text := "a"; character := Some ("b" +:+ "|" +:+ "c") |}
    heat BALANCED HIGH =
  _generate_cache_key plain
    {| index := 2; start_time := "2"; end_time := "3";
       text := "a" +:+ "|" +:+ "b"; character := Some "c" |}
    heat BALANCED HIGH
  ∧
  _generate_cache_key plain
    {| index := 1; start_time := "0"; end_time := "1";
       text := "a"; character := None |}
    heat BALANCED HIGH =
  _generate_cache_key plain
    {| index := 2; start_time := "2"; end_time := "3";
       text := "a"; character := Some "none" |}
    heat BALANCED HIGH.
Proof. split; [done|]. by apply cache_keys_collide. Defined.

Lemma temperature_in_range_and_antitone_witness :
  (quality_rank BASIC ≤ quality_rank PREMIUM)%nat ∧
  (0 ≤ _get_temperature LITERAL PREMIUM)%Qc ∧
  (_get_temperature LITERAL PREMIUM ≤ _get_temperature LITERAL BASIC)%Qc ∧
  (_get_temperature LITERAL BASIC ≤ 1)%Qc.
Proof.
  split; [simpl; lia|]. apply temperature_in_range_and_antitone. simpl. lia.
Defined.

(** The literal style at the highest quality: 0.1 - 0.2 is cut off at 0. *)
Example literal_premium_is_zero :
  bool_decide (_get_temperature LITERAL PREMIUM = 0%Qc) = true.
Proof. by vm_compute. Qed.

Lemma unreadable_reply_falls_back_witness :
  (search_json "Ni hao" = None ∨
   ∃ group e, search_json "Ni hao" = Some group ∧ no_json group = Raise e) ∧
  _parse_translation_response no_json (PStr "Ni hao") hello
    = Ok (fallback_result hello).
Proof.
  assert (H : search_json "Ni hao" = None ∨
              ∃ group e, search_json "Ni hao" = Some group
                         ∧ no_json group = Raise e) by (left; reflexivity).
  split; [exact H|]. by apply unreadable_reply_falls_back.
Defined.

Lemma update_stats_running_mean_witness :
  quality_score hello_cached = PNum (Q2Qc (9 # 10)) ∧
  confidence hello_cached = PNum (Q2Qc (95 # 100)) ∧
  0 ≤ total_lines translation_stats0 ∧
  let st' := (_update_stats hello_cached translation_stats0).1 in
  (_update_stats hello_cached translation_stats0).2 = Ok tt ∧
  total_lines st' = total_lines translation_stats0 + 1 ∧
  (avg_quality st' * Q2Qc (inject_Z (total_lines st')) =
   avg_quality translation_stats0
     * Q2Qc (inject_Z (total_lines translation_stats0)) + Q2Qc (9 # 10))%Qc ∧
  (avg_confidence st' * Q2Qc (inject_Z (total_lines st')) =
   avg_confidence translation_stats0
     * Q2Qc (inject_Z (total_lines translation_stats0)) + Q2Qc (95 # 100))%Qc.
Proof.
  do 2 (split; [reflexivity|]). split; [simpl; lia|].
  apply update_stats_running_mean; [reflexivity|reflexivity|simpl; lia].
Defined.

Lemma update_stats_counts_before_it_fails_witness :
  numeric (quality_score
             {| original_text := PStr "Hello"; translated_text := PStr "Ni hao";
                confidence := PNum 1%Qc; quality_score := PStr "high";
                style_score := PNum 1%Qc; cultural_score := PNum 1%Qc;
                character_score := PNum 1%Qc; suggestions := PList [];
                alternative_translations := PList [] |}) = false ∧
  let run :=
    _update_stats
      {| original_text := PStr "Hello"; translated_text := PStr "Ni hao";
         confidence := PNum 1%Qc; quality_score := PStr "high";
         style_score := PNum 1%Qc; cultural_score := PNum 1%Qc;
         character_score := PNum 1%Qc; suggestions := PList [];
         alternative_translations := PList [] |} translation_stats0 in
  run.2 = Raise (PyError "TypeError") ∧
  total_lines run.1 = total_lines translation_stats0 + 1 ∧
  avg_quality run.1 = avg_quality translation_stats0 ∧
  avg_confidence run.1 = avg_confidence translation_stats0.
Proof.
  split; [reflexivity|]. by apply update_stats_counts_before_it_fails.
Defined.

Lemma nonpositive_batch_size_witness :
  -1 ≤ 0 ∧
  translate_batch flaky 10 five (Some (-1)) 0%nat =
  (0%nat, if -1 =? 0 then Raise (PyError "ValueError") else Ok []).
Proof. split; [lia|]. apply nonpositive_batch_size. lia. Defined.

End EngineFacts.
